(** * Screen-share test app: the capture hook, its page and the browser probe

  A shallow embedding of
    - [src/utils/browser.ts]        ([getBrowserInfo]),
    - [src/types/screenShare.ts]    (the data contracts),
    - [src/hooks/useScreenShare.ts] (the [useScreenShare] hook),
    - the screen-test page that consumes the hook (its button gates),
  followed by the properties of the lifecycle state machine. *)

From Stdlib Require Import Bool List String Ascii Arith Lia QArith.
Import ListNotations.

Local Close Scope Q_scope.
Local Open Scope nat_scope.
Local Open Scope list_scope.
Local Open Scope string_scope.

(* ================================================================== *)
(** ** JavaScript strings: [String.prototype.includes] *)
(* ================================================================== *)

Module JsString.

(** [includes s sub] is [s.includes(sub)]: a case-sensitive search of
    [sub] at every offset of [s]. *)
Fixpoint includes (s sub : string) : bool :=
  String.prefix sub s
  || match s with
     | EmptyString => false
     | String _ rest => includes rest sub
     end.

(** [contains s sub]: [sub] occurs in [s]. *)
Definition contains (s sub : string) : Prop :=
  exists pre post, s = pre ++ sub ++ post.

End JsString.

(* ================================================================== *)
(** ** [src/utils/browser.ts] *)
(* ================================================================== *)

Module Browser.
Import JsString.

(** [getBrowserInfo].  The argument is [navigator]: [None] when
    [typeof navigator === 'undefined'], otherwise its [userAgent]. *)
Definition getBrowserInfo (navigator : option string) : string :=
  match navigator with
  | None => "Unknown (no navigator)"
  | Some userAgent =>
      if includes userAgent "Chrome" then "Chrome"
      else if includes userAgent "Edg" then "Edge"
      else if includes userAgent "Firefox" then "Firefox"
      else if includes userAgent "Safari" then "Safari"
      else "Unknown"
  end.

(** The user agent of Microsoft Edge 120 on Windows. *)
Definition edge_user_agent : string :=
  "Mozilla/5.0 (Windows NT 10.0; Win64; x64) AppleWebKit/537.36 (KHTML, like Gecko) Chrome/120.0.0.0 Safari/537.36 Edg/120.0.0.0".

End Browser.

(* ================================================================== *)
(** ** [src/types/screenShare.ts] and the platform objects *)
(* ================================================================== *)

Module Types.

(** [enum PermissionState]. *)
Inductive PermissionState : Type :=
| IDLE | REQUESTING | GRANTED | CANCELLED | DENIED | ERROR.

Definition PermissionState_eqb (a b : PermissionState) : bool :=
  match a, b with
  | IDLE, IDLE | REQUESTING, REQUESTING | GRANTED, GRANTED
  | CANCELLED, CANCELLED | DENIED, DENIED | ERROR, ERROR => true
  | _, _ => false
  end.

(** [type DisplayType = 'monitor' | 'window' | 'browser' | 'unknown']. *)
Inductive DisplayType : Type := monitor | window | browser | unknown.

(** A JavaScript [number] as far as the hook looks at it: a rational
    value or [NaN].  The hook only tests numbers for truthiness and
    passes them on. *)
Inductive number : Type :=
| NaN
| Fin (q : Q).

Definition zero : number := Fin 0%Q.

(** JavaScript truthiness of a number: [0] and [NaN] are falsy. *)
Definition truthy (n : number) : bool :=
  match n with
  | NaN => false
  | Fin q => negb (Qeq_bool q 0%Q)
  end.

(** [interface StreamMetadata]. *)
Record StreamMetadata : Type := mkMetadata {
  displayType : DisplayType;
  width : number;
  height : number;
  frameRate : number;
}.

End Types.

Module Platform.
Import Types.

(** [MediaTrackSettings]: every member may be left out by the browser. *)
Record MediaTrackSettings : Type := mkSettings {
  displaySurface : option string;
  width : option number;
  height : option number;
  frameRate : option number;
}.

Inductive TrackKind : Type := video | audio.

Record MediaStreamTrack : Type := mkTrack {
  kind : TrackKind;
  getSettings : MediaTrackSettings;
}.

(** A [MediaStream] object.  [id] stands for the identity of the
    object: two streams are the same object iff their ids agree. *)
Record MediaStream : Type := mkStream {
  id : nat;
  getTracks : list MediaStreamTrack;
}.

Definition isVideo (t : MediaStreamTrack) : bool :=
  match kind t with video => true | audio => false end.

Definition getVideoTracks (ms : MediaStream) : list MediaStreamTrack :=
  filter isVideo (getTracks ms).

(** The part of a JavaScript error object the hook reads. *)
Record JsError : Type := mkError {
  name : string;
  message : string;
}.

(** Object identity of two nullable stream references ([Object.is],
    which React uses to compare effect dependencies). *)
Definition sameStream (a b : option MediaStream) : bool :=
  match a, b with
  | None, None => true
  | Some x, Some y => Nat.eqb (id x) (id y)
  | _, _ => false
  end.

End Platform.

(* ================================================================== *)
(** ** [src/hooks/useScreenShare.ts] *)
(* ================================================================== *)

Module Hook.
Import JsString Types Platform.

(** [interface ScreenShareState]: the five [useState] cells. *)
Record ScreenShareState : Type := mkState {
  permissionState : PermissionState;
  stream : option MediaStream;
  metadata : option StreamMetadata;
  error : option JsError;
  isActive : bool;
}.

(** The hook instance together with the part of its environment that
    its handlers touch. *)
Record World : Type := mkWorld {
  state : ScreenShareState;     (* the committed React state *)
  isMountedRef : bool;          (* [isMountedRef.current] *)
  rendered : bool;              (* the component is still in the tree *)
  inFlight : nat;               (* [getDisplayMedia] promises not settled yet *)
  displayMediaCalls : nat;      (* [getDisplayMedia] calls made so far *)
  acquired : list nat;          (* ids of the streams the platform handed out *)
  cleaned : list nat;           (* one entry per [cleanupStream] of a stream *)
  onended : list nat;           (* streams whose video track has [onended] set *)
}.

(** *** State setters *)

Definition setPermissionState (p : PermissionState) (s : ScreenShareState) :=
  mkState p (stream s) (metadata s) (error s) (isActive s).
Definition setStream (x : option MediaStream) (s : ScreenShareState) :=
  mkState (permissionState s) x (metadata s) (error s) (isActive s).
Definition setMetadata (m : option StreamMetadata) (s : ScreenShareState) :=
  mkState (permissionState s) (stream s) m (error s) (isActive s).
Definition setError (e : option JsError) (s : ScreenShareState) :=
  mkState (permissionState s) (stream s) (metadata s) e (isActive s).
Definition setIsActive (b : bool) (s : ScreenShareState) :=
  mkState (permissionState s) (stream s) (metadata s) (error s) b.

(** A command is a world transformer; [c1 ;; c2] runs [c1] then [c2]. *)
Definition Cmd : Type := World -> World.

Definition seq (c1 c2 : Cmd) : Cmd := fun w => c2 (c1 w).
Notation "c1 ;; c2" := (seq c1 c2) (at level 61, right associativity).

Definition skip : Cmd := fun w => w.

Definition update (f : ScreenShareState -> ScreenShareState) : Cmd :=
  fun w => mkWorld (f (state w)) (isMountedRef w) (rendered w) (inFlight w)
             (displayMediaCalls w) (acquired w) (cleaned w) (onended w).

Definition setMounted (b : bool) : Cmd :=
  fun w => mkWorld (state w) b (rendered w) (inFlight w)
             (displayMediaCalls w) (acquired w) (cleaned w) (onended w).

Definition setRendered (b : bool) : Cmd :=
  fun w => mkWorld (state w) (isMountedRef w) b (inFlight w)
             (displayMediaCalls w) (acquired w) (cleaned w) (onended w).

(** [navigator.mediaDevices.getDisplayMedia(...)]: one more call, one
    more promise outstanding. *)
Definition getDisplayMedia : Cmd :=
  fun w => mkWorld (state w) (isMountedRef w) (rendered w) (S (inFlight w))
             (S (displayMediaCalls w)) (acquired w) (cleaned w) (onended w).

(** The platform settles one outstanding promise. *)
Definition settle : Cmd :=
  fun w => mkWorld (state w) (isMountedRef w) (rendered w) (pred (inFlight w))
             (displayMediaCalls w) (acquired w) (cleaned w) (onended w).

Definition acquire (ms : MediaStream) : Cmd :=
  fun w => mkWorld (state w) (isMountedRef w) (rendered w) (inFlight w)
             (displayMediaCalls w) (acquired w ++ [id ms])%list (cleaned w)
             (onended w).

Definition setOnended (ms : MediaStream) : Cmd :=
  fun w => mkWorld (state w) (isMountedRef w) (rendered w) (inFlight w)
             (displayMediaCalls w) (acquired w) (cleaned w)
             (onended w ++ [id ms])%list.

(** *** The hook's functions *)

(** [getDisplayType] (lines 31-46). *)
Definition getDisplayType (track : MediaStreamTrack) : DisplayType :=
  match displaySurface (getSettings track) with
  | Some surface =>
      if String.eqb surface "monitor" then monitor
      else if String.eqb surface "window" then window
      else if String.eqb surface "browser" then browser
      else unknown
  | None => unknown
  end.

(** [value || 0] on an optional number. *)
Definition orZero (value : option number) : number :=
  match value with
  | Some n => if truthy n then n else zero
  | None => zero
  end.

(** The outcome of a function that may [throw]. *)
Inductive result (A : Type) : Type :=
| Ok (a : A)
| Throw (err : JsError).
Arguments Ok {A} a.
Arguments Throw {A} err.

Definition noVideoTrack : JsError := mkError "Error" "No video track found".

(** [extractMetadata] (lines 51-75). *)
Definition extractMetadata (mediaStream : MediaStream) : result StreamMetadata :=
  match getVideoTracks mediaStream with
  | [] => Throw noVideoTrack
  | videoTrack :: _ =>
      let settings := getSettings videoTrack in
      Ok (mkMetadata (getDisplayType videoTrack)
            (orZero (Platform.width settings))
            (orZero (Platform.height settings))
            (orZero (Platform.frameRate settings)))
  end.

(** [cleanupStream] (lines 80-98): stops every track of the stream;
    each call on a stream is logged in [cleaned]. *)
Definition cleanupStream (mediaStream : option MediaStream) : Cmd :=
  match mediaStream with
  | None => skip
  | Some ms =>
      fun w => mkWorld (state w) (isMountedRef w) (rendered w) (inFlight w)
                 (displayMediaCalls w) (acquired w) (cleaned w ++ [id ms])%list
                 (onended w)
  end.

(** [handleStreamEnd] (lines 103-117). *)
Definition handleStreamEnd : Cmd :=
  fun w =>
    if negb (isMountedRef w) then w
    else (update (setIsActive false) ;;
          update (setPermissionState IDLE) ;;
          update (setStream None) ;;
          update (setMetadata None)) w.

(** [requestScreenShare] up to its [await] (lines 122-138). *)
Definition requestScreenShare : Cmd :=
  update (setError None) ;;
  update (setPermissionState REQUESTING) ;;
  getDisplayMedia.

(** The classification of the [catch] block (lines 187-207). *)
Definition classify (err : JsError) : PermissionState :=
  if String.eqb (name err) "NotAllowedError" then
    if includes (message err) "cancelled" || includes (message err) "dismiss"
    then CANCELLED
    else DENIED
  else if String.eqb (name err) "NotFoundError" then CANCELLED
  else if String.eqb (name err) "NotSupportedError" then ERROR
  else if String.eqb (name err) "AbortError" then CANCELLED
  else ERROR.

(** The [catch] block of [requestScreenShare] (lines 176-213). *)
Definition requestFailed (err : JsError) : Cmd :=
  fun w =>
    if negb (isMountedRef w) then w
    else (update (setPermissionState (classify err)) ;;
          update (setError (Some err)) ;;
          update (setIsActive false)) w.

(** [requestScreenShare] after its [await], when the promise is
    fulfilled with [mediaStream] (lines 140-174); an exception of
    [extractMetadata] lands in the [catch] block. *)
Definition requestGranted (mediaStream : MediaStream) : Cmd :=
  match extractMetadata mediaStream with
  | Throw err => requestFailed err
  | Ok streamMetadata =>
      match getVideoTracks mediaStream with
      | _ :: _ => setOnended mediaStream
      | [] => skip
      end ;;
      fun w =>
        if isMountedRef w then
          (update (setPermissionState GRANTED) ;;
           update (setStream (Some mediaStream)) ;;
           update (setMetadata (Some streamMetadata)) ;;
           update (setIsActive true)) w
        else cleanupStream (Some mediaStream) w
  end.

(** [stopScreenShare] (lines 219-237); [stream] is the committed one. *)
Definition stopScreenShare : Cmd :=
  fun w =>
    match stream (state w) with
    | None => w
    | Some s =>
        (cleanupStream (Some s) ;;
         fun w' =>
           if isMountedRef w' then
             (update (setIsActive false) ;;
              update (setPermissionState IDLE) ;;
              update (setStream None) ;;
              update (setMetadata None)) w'
           else w') w
    end.

(** The function returned by the effect of lines 242-253, closed over
    the [stream] of the render that created the effect. *)
Definition effectCleanup (stream : option MediaStream) : Cmd :=
  setMounted false ;;
  match stream with
  | Some s => cleanupStream (Some s)
  | None => skip
  end.

(** *** React's part

    The effect has the dependency list [[stream, cleanupStream]], and
    [cleanupStream] is a [useCallback] with no dependencies.  After a
    handler has run, React renders again; when the [stream] cell holds
    another object than at the previous render, React first calls the
    cleanup function of the previous effect and then runs the effect
    body again (which only logs).  [prev] is the [stream] of the render
    before the handler. *)
Definition rerender (prev : option MediaStream) : Cmd :=
  fun w =>
    if sameStream prev (stream (state w)) then w
    else effectCleanup prev w.

(** Unmounting calls the cleanup function of the current effect. *)
Definition unmount : Cmd :=
  fun w => (effectCleanup (stream (state w)) ;; setRendered false) w.

(** *** Events *)

Inductive Event : Type :=
| Start                         (* the page calls [requestScreenShare] *)
| Stop                          (* the page calls [stopScreenShare] *)
| Resolve (ms : MediaStream)    (* [getDisplayMedia] fulfils with [ms] *)
| Reject (err : JsError)        (* [getDisplayMedia] rejects with [err] *)
| TrackEnded (i : nat)          (* the video track of stream [i] fires [ended] *)
| Unmount.                      (* the component leaves the tree *)

(** The handler an event runs. *)
Definition handler (e : Event) : Cmd :=
  match e with
  | Start => requestScreenShare
  | Stop => stopScreenShare
  | Resolve ms => settle ;; acquire ms ;; requestGranted ms
  | Reject err => settle ;; requestFailed err
  | TrackEnded _ => handleStreamEnd
  | Unmount => unmount
  end.

(** One event: the handler, then React's render of the new state. *)
Definition step (w : World) (e : Event) : World :=
  match e with
  | Unmount => handler e w
  | _ => rerender (stream (state w)) (handler e w)
  end.

Definition mem (i : nat) (l : list nat) : bool := existsb (Nat.eqb i) l.

(** When an event can happen: the page can call the hook only while
    it is rendered; the platform settles only promises that exist and
    fulfils them with a new stream object; [ended] reaches the hook
    only through an [onended] it has installed. *)
Definition enabled (w : World) (e : Event) : bool :=
  match e with
  | Start | Stop | Unmount => rendered w
  | Resolve ms => Nat.ltb 0 (inFlight w) && negb (mem (id ms) (acquired w))
  | Reject _ => Nat.ltb 0 (inFlight w)
  | TrackEnded i => mem i (onended w)
  end.

(** The hook right after the first render. *)
Definition initial : World :=
  mkWorld (mkState IDLE None None None false) true true 0 0 [] [] [].

(** The worlds a run can be in when every event passes [allowed]. *)
Inductive reachableBy (allowed : World -> Event -> bool) : World -> Prop :=
| reach_initial : reachableBy allowed initial
| reach_step w e :
    reachableBy allowed w -> allowed w e = true ->
    reachableBy allowed (step w e).

(** Running a list of events; [None] when one of them is not allowed. *)
Fixpoint runBy (allowed : World -> Event -> bool)
    (w : World) (events : list Event) : option World :=
  match events with
  | [] => Some w
  | e :: rest => if allowed w e then runBy allowed (step w e) rest else None
  end.

Definition reachable : World -> Prop := reachableBy enabled.
Definition run : World -> list Event -> option World := runBy enabled.

(** How often [cleanupStream] was called on the stream [i]. *)
Definition releases (i : nat) (w : World) : nat :=
  count_occ Nat.eq_dec (cleaned w) i.

Definition present {A : Type} (o : option A) : bool :=
  match o with Some _ => true | None => false end.

End Hook.

(* ================================================================== *)
(** ** The screen-test page: when it lets the user call the hook *)
(* ================================================================== *)

Module Page.
Import Types Platform Hook.

(** [showInitialButton] of the page. *)
Definition showInitialButton (s : ScreenShareState) : bool :=
  match permissionState s with
  | IDLE | CANCELLED | DENIED | ERROR => true
  | REQUESTING | GRANTED => false
  end.

(** [isRequesting] of the page; the start button is [disabled] by it. *)
Definition isRequesting (s : ScreenShareState) : bool :=
  PermissionState_eqb (permissionState s) REQUESTING.

(** The condition of the block with the "Retry Screen Test" button. *)
Definition showRetry (s : ScreenShareState) : bool :=
  negb (isActive s)
  && PermissionState_eqb (permissionState s) IDLE
  && negb (present (stream s))
  && present (error s).

(** The condition of the block with the "Stop Screen Sharing" button. *)
Definition showStop (s : ScreenShareState) : bool :=
  isActive s && present (stream s) && present (metadata s).

(** Some button of the page calls [requestScreenShare]. *)
Definition offersStart (s : ScreenShareState) : bool :=
  (showInitialButton s && negb (isRequesting s)) || showRetry s.

(** The events that can happen when the page is the only caller of
    the hook. *)
Definition offers (w : World) (e : Event) : bool :=
  enabled w e
  && match e with
     | Start => offersStart (state w)
     | Stop => showStop (state w)
     | _ => true
     end.

Definition pageReachable : World -> Prop := reachableBy offers.
Definition pageRun : World -> list Event -> option World := runBy offers.

End Page.

(* ================================================================== *)
(** ** Concrete platform values used in the scenarios *)
(* ================================================================== *)

Module Samples.
Import Types Platform Hook Page.

(** A full-HD monitor capture at 30 frames per second. *)
Definition monitorSettings : MediaTrackSettings :=
  mkSettings (Some "monitor") (Some (Fin 1920%Q)) (Some (Fin 1080%Q))
    (Some (Fin 30%Q)).

(** Settings of a browser that reports nothing. *)
Definition bareSettings : MediaTrackSettings :=
  mkSettings None None None None.

Definition monitorStream : MediaStream :=
  mkStream 1 [mkTrack video monitorSettings].

Definition bareStream : MediaStream :=
  mkStream 2 [mkTrack video bareSettings].

(** A stream object that carries no video track. *)
Definition tracklessStream : MediaStream := mkStream 3 [].

Definition pickerDismissed : JsError :=
  mkError "NotAllowedError" "Permission dismissed by user".

Definition permissionDenied : JsError :=
  mkError "NotAllowedError" "Permission denied by system".

Definition requestAborted : JsError :=
  mkError "AbortError" "The operation was aborted.".

Definition notSupported : JsError :=
  mkError "NotSupportedError" "Not supported".


(** The world after the events [events], or [initial] when they cannot
    happen in that order. *)
Definition after (events : list Event) : World :=
  match run initial events with
  | Some w => w
  | None => initial
  end.

(** The same when the page is the only caller of the hook. *)
Definition pageAfter (events : list Event) : World :=
  match pageRun initial events with
  | Some w => w
  | None => initial
  end.

End Samples.

(* ================================================================== *)
(** ** Invariants of the lifecycle *)
(* ================================================================== *)

Module Invariants.
Import Types Platform Hook Page.

(** The three rest states a failed request ends in. *)
Definition isRest (p : PermissionState) : bool :=
  match p with
  | CANCELLED | DENIED | ERROR => true
  | IDLE | REQUESTING | GRANTED => false
  end.

(** A stream is held exactly in the [GRANTED] phase. *)
Definition heldIffGranted (w : World) : Prop :=
  present (stream (state w)) = true <-> permissionState (state w) = GRANTED.

(** What holds of every world the hook can be in. *)
Record Inv (w : World) : Prop := mkInv {
  inv_pair : present (stream (state w)) = present (metadata (state w));
  inv_active : isActive (state w) = present (stream (state w));
  inv_flag : present (stream (state w)) = true -> isMountedRef w = false;
  inv_listener : onended w <> [] -> isMountedRef w = false;
  inv_disposed : rendered w = false -> isMountedRef w = false;
  inv_granted :
    permissionState (state w) = GRANTED -> present (stream (state w)) = true;
  inv_held :
    present (stream (state w)) = true ->
    permissionState (state w) = GRANTED
    \/ permissionState (state w) = REQUESTING;
  inv_rest :
    isRest (permissionState (state w)) = true ->
    present (error (state w)) = true;
}.

(** What holds in addition when only the page calls the hook. *)
Record PageInv (w : World) : Prop := mkPageInv {
  pinv_single : inFlight w <= 1;
  pinv_requesting :
    inFlight w = 1 ->
    permissionState (state w) = REQUESTING
    /\ present (error (state w)) = false;
  pinv_error :
    present (error (state w)) = true ->
    isRest (permissionState (state w)) = true;
  pinv_stream :
    present (stream (state w)) = true ->
    permissionState (state w) = GRANTED;
}.

End Invariants.

(* ================================================================== *)
(** ** The components that consume the hook and the probe *)
(* ================================================================== *)

Module Components.
Import JsString Types Platform Hook Browser.

(** *** [src/utils/browser.ts]: [isScreenShareSupported] *)

(** [navigator.mediaDevices], as far as the probe looks at it: whether
    the key [getDisplayMedia] is in it. *)
Record MediaDevices : Type := mkMediaDevices {
  hasGetDisplayMediaKey : bool;
}.

(** The global [navigator]; [mediaDevices] is [None] when the key is not
    in the object. *)
Record Navigator : Type := mkNavigator {
  userAgent : string;
  mediaDevices : option MediaDevices;
}.

(** [isScreenShareSupported] (lines 6-20); the argument is [None] when
    [typeof navigator === 'undefined']. *)
Definition isScreenShareSupported (navigator : option Navigator) : bool :=
  let hasNavigator := present navigator in
  let hasMediaDevices :=
    hasNavigator
    && match navigator with
       | Some nav => present (mediaDevices nav)
       | None => false
       end in
  let hasGetDisplayMedia :=
    hasMediaDevices
    && match navigator with
       | Some nav =>
           match mediaDevices nav with
           | Some devices => hasGetDisplayMediaKey devices
           | None => false
           end
       | None => false
       end in
  hasGetDisplayMedia.

(** *** The home page *)

(** The two [useState] cells of [HomePage]; [isSupported] starts as
    [null]. *)
Record HomeState : Type := mkHome {
  isSupported : option bool;
  browserInfo : string;
}.

Definition homeInitial : HomeState := mkHome None "".

(** The mount effect of [HomePage]. *)
Definition homeMounted (navigator : option Navigator) : HomeState :=
  mkHome (Some (isScreenShareSupported navigator))
    (getBrowserInfo (option_map userAgent navigator)).

(** [handleStartTest]: the route pushed to the router, if any. *)
Definition handleStartTest (s : HomeState) : option string :=
  match isSupported s with
  | Some true => Some "/screen-test"
  | Some false | None => None
  end.

(** Which of the three blocks of [HomePage] is rendered, and whether the
    button in it can be clicked. *)
Inductive HomeBlock : Type := Checking | Supported | Unsupported.

Definition homeBlock (s : HomeState) : HomeBlock :=
  match isSupported s with
  | None => Checking
  | Some true => Supported
  | Some false => Unsupported
  end.

Definition homeButtonClickable (s : HomeState) : bool :=
  match homeBlock s with
  | Supported => true
  | Checking | Unsupported => false
  end.

(** *** [src/components/PermissionStateDisplay.tsx] *)

(** The text the component renders: the title and the message of the
    state's entry in [stateConfigs], and the block with the name and the
    message of the error when it is rendered.  Icon and colours are left
    out. *)
Record Banner : Type := mkBanner {
  title : string;
  text : string;
  details : option (string * string);
}.

Definition quote : string := String (Ascii.ascii_of_nat 34) EmptyString.

Definition unknownErrorText : string :=
  "An unknown error occurred while requesting screen share.".

(** [error?.message || '...']: the empty message is falsy. *)
Definition errorText (error : option JsError) : string :=
  match error with
  | Some err => if String.eqb (message err) "" then unknownErrorText
                else message err
  | None => unknownErrorText
  end.

(** [error && permissionState === PermissionState.ERROR]. *)
Definition errorDetails (p : PermissionState) (error : option JsError)
  : option (string * string) :=
  match error with
  | Some err =>
      if PermissionState_eqb p ERROR then Some (name err, message err)
      else None
  | None => None
  end.

(** [PermissionStateDisplay]; [None] is the [null] it returns. *)
Definition PermissionStateDisplay (p : PermissionState)
    (error : option JsError) : option Banner :=
  match p with
  | IDLE | GRANTED => None
  | REQUESTING =>
      Some (mkBanner "Requesting Permission"
              "Please select a screen, window, or tab to share in the browser dialog."
              (errorDetails p error))
  | CANCELLED =>
      Some (mkBanner "Screen Sharing Cancelled"
              ("You cancelled the screen selection. Click " ++ quote
               ++ "Retry" ++ quote ++ " to try again.")
              (errorDetails p error))
  | DENIED =>
      Some (mkBanner "Permission Denied"
              "Screen sharing permission was denied. Please check your browser settings and try again."
              (errorDetails p error))
  | ERROR =>
      Some (mkBanner "Error Occurred" (errorText error)
              (errorDetails p error))
  end.

(** *** [src/components/StreamPreview.tsx] *)

(** The key of a display type in [displayTypeLabels]: the string the
    type is in TypeScript. *)
Definition displayTypeKey (d : DisplayType) : string :=
  match d with
  | monitor => "monitor"
  | window => "window"
  | browser => "browser"
  | unknown => "unknown"
  end.

(** [displayTypeLabels], a lookup by key; [None] is [undefined]. *)
Definition displayTypeLabels (key : string) : option string :=
  if String.eqb key "monitor" then Some "Entire Screen"
  else if String.eqb key "window" then Some "Application Window"
  else if String.eqb key "browser" then Some "Browser Tab"
  else if String.eqb key "unknown" then Some "Unknown Source"
  else None.

(** [displayTypeLabels[metadata.displayType]]. *)
Definition displayTypeLabel (md : StreamMetadata) : option string :=
  displayTypeLabels (displayTypeKey (displayType md)).

End Components.

(* ================================================================== *)
(** ** Runs of the hook: what a list of events contains *)
(* ================================================================== *)

Module Traces.
Import Types Platform Hook.

Definition isStart (e : Event) : bool :=
  match e with Start => true | _ => false end.

(** The calls of [requestScreenShare] in a list of events. *)
Definition starts (events : list Event) : nat :=
  List.length (filter isStart events).

(** The streams with a video track that the platform hands out in a
    list of events. *)
Fixpoint grantedWithTrack (events : list Event) : list MediaStream :=
  match events with
  | [] => []
  | Resolve ms :: rest =>
      match getVideoTracks ms with
      | [] => grantedWithTrack rest
      | _ :: _ => ms :: grantedWithTrack rest
      end
  | _ :: rest => grantedWithTrack rest
  end.

(** Every stream of [streams] has been cleaned up, or the hook is still
    rendered and holds it in its state. *)
Definition accountedFor (streams : list MediaStream) (w : World) : Prop :=
  forall ms, In ms streams ->
    In (id ms) (cleaned w)
    \/ (rendered w = true /\ stream (state w) = Some ms).

End Traces.

(* ================================================================== *)
(** ** Properties of [includes] *)
(* ================================================================== *)

Module JsStringFacts.
Import JsString.

Lemma prefix_split (p s : string) :
  String.prefix p s = true <-> exists post, s = p ++ post.
Proof.
  revert s; induction p as [|a p IH]; intros s; simpl.
  - split; [eauto | now destruct s].
  - destruct s as [|b s]; simpl.
    + split; [discriminate | intros [post H]; discriminate].
    + destruct (Ascii.ascii_dec a b) as [->|Hab].
      * rewrite IH. split; intros [post H]; exists post.
        -- now rewrite H.
        -- now injection H.
      * split; [discriminate | intros [post H]; injection H; congruence].
Qed.

Lemma includes_nil (sub : string) :
  includes "" sub = String.prefix sub "".
Proof. simpl. now rewrite orb_false_r. Qed.

Lemma includes_cons (c : ascii) (s sub : string) :
  includes (String c s) sub = String.prefix sub (String c s) || includes s sub.
Proof. reflexivity. Qed.

(** [includes] finds exactly the substrings. *)
Lemma includes_spec (s sub : string) :
  includes s sub = true <-> contains s sub.
Proof.
  unfold contains. induction s as [|c s IH].
  - rewrite includes_nil, prefix_split. split.
    + intros [post H]. now exists "", post.
    + intros [pre [post H]]. destruct pre; simpl in H; [eauto | discriminate].
  - rewrite includes_cons, orb_true_iff, prefix_split, IH. split.
    + intros [[post H] | [pre [post H]]].
      * now exists "", post.
      * exists (String c pre), post. simpl. now rewrite H.
    + intros [pre [post H]]. destruct pre as [|d pre]; simpl in H.
      * left. eauto.
      * right. injection H as _ H. eauto.
Qed.

End JsStringFacts.

(* ================================================================== *)
(** ** The browser probe *)
(* ================================================================== *)

Module BrowserFacts.
Import JsString JsStringFacts Browser.

Lemma includes_false (s sub : string) :
  includes s sub = false <-> ~ contains s sub.
Proof.
  rewrite <- includes_spec.
  destruct (includes s sub); split; intros H; congruence.
Qed.

(** C9. Every user agent that contains "Chrome" is reported as "Chrome",
    also when it contains "Edg"; "Edge" is the answer exactly for the
    user agents that contain "Edg" and do not contain "Chrome". *)
Theorem getBrowserInfo_Chrome_before_Edge (userAgent : string) :
  (contains userAgent "Chrome" -> getBrowserInfo (Some userAgent) = "Chrome")
  /\ (getBrowserInfo (Some userAgent) = "Edge" <->
      contains userAgent "Edg" /\ ~ contains userAgent "Chrome").
Proof.
  unfold getBrowserInfo. split.
  - intros H. apply includes_spec in H. now rewrite H.
  - rewrite <- includes_false, <- includes_spec.
    destruct (includes userAgent "Chrome"), (includes userAgent "Edg"),
      (includes userAgent "Firefox"), (includes userAgent "Safari");
      split; try discriminate; try tauto; intros [? ?]; discriminate.
Qed.

(** A real Edge user agent contains both markers and is reported as
    "Chrome". *)
Lemma getBrowserInfo_Chrome_before_Edge_witness :
  contains edge_user_agent "Edg"
  /\ getBrowserInfo (Some edge_user_agent) = "Chrome".
Proof.
  split.
  - apply includes_spec. reflexivity.
  - apply (getBrowserInfo_Chrome_before_Edge edge_user_agent).
    apply includes_spec. reflexivity.
Defined.

End BrowserFacts.

(* ================================================================== *)
(** ** The hook: single steps *)
(* ================================================================== *)

Module HookFacts.
Import JsString JsStringFacts BrowserFacts Types Platform Hook Samples.

Lemma sameStream_refl (s : option MediaStream) : sameStream s s = true.
Proof. destruct s as [ms|]; simpl; [apply Nat.eqb_refl | reflexivity]. Qed.

(** A handler that leaves the [stream] cell alone triggers no effect. *)
Lemma rerender_same (prev : option MediaStream) (w : World) :
  stream (state w) = prev -> rerender prev w = w.
Proof. intros <-. unfold rerender. now rewrite sameStream_refl. Qed.

(** [rerender] never writes the React state. *)
Lemma rerender_state (prev : option MediaStream) (w : World) :
  state (rerender prev w) = state w.
Proof.
  unfold rerender. destruct (sameStream prev (stream (state w))); [reflexivity|].
  destruct prev; reflexivity.
Qed.

Lemma reject_state_mounted (w : World) (err : JsError) :
  isMountedRef w = true ->
  state (step w (Reject err))
  = mkState (classify err) (stream (state w)) (metadata (state w)) (Some err) false.
Proof.
  intros Hm. simpl. rewrite rerender_state.
  unfold seq, requestFailed, settle; simpl. rewrite Hm. reflexivity.
Qed.

(** An aborted request ends in [CANCELLED], not in [ERROR]. *)
Lemma abort_is_cancelled_not_failed :
  permissionState (state (after [Start; Reject requestAborted])) = CANCELLED
  /\ permissionState (state (after [Start; Reject requestAborted])) <> ERROR.
Proof. split; [reflexivity | discriminate]. Qed.

(** C4 (as amended). A rejection that reaches a mounted hook is
    classified by the name of the error: "AbortError" and
    "NotFoundError" give [CANCELLED]; "NotAllowedError" gives [CANCELLED]
    when the message contains "cancelled" or "dismiss" and [DENIED]
    otherwise; "NotSupportedError" and every other name give [ERROR]. *)
Theorem rejection_classification (w : World) (err : JsError) :
  isMountedRef w = true ->
  let phase := permissionState (state (step w (Reject err))) in
  (name err = "AbortError" -> phase = CANCELLED)
  /\ (name err = "NotFoundError" -> phase = CANCELLED)
  /\ (name err = "NotSupportedError" -> phase = ERROR)
  /\ (name err = "NotAllowedError" ->
      (contains (message err) "cancelled" \/ contains (message err) "dismiss" ->
       phase = CANCELLED)
      /\ (~ contains (message err) "cancelled" ->
          ~ contains (message err) "dismiss" -> phase = DENIED))
  /\ (name err <> "NotAllowedError" -> name err <> "NotFoundError" ->
      name err <> "NotSupportedError" -> name err <> "AbortError" ->
      phase = ERROR)
  /\ (phase = DENIED -> name err = "NotAllowedError").
Proof.
  intros Hm phase. subst phase. rewrite (reject_state_mounted w err Hm).
  cbn [permissionState]. unfold classify.
  split; [intros ->; reflexivity|].
  split; [intros ->; reflexivity|].
  split; [intros ->; reflexivity|].
  split; [intros ->; split|].
  - intros [H|H]; apply includes_spec in H; rewrite H; simpl;
      [reflexivity | now rewrite orb_true_r].
  - intros H1 H2. apply includes_false in H1, H2. simpl. now rewrite H1, H2.
  - split.
    + intros H1 H2 H3 H4. apply String.eqb_neq in H1, H2, H3, H4.
      now rewrite H1, H2, H3, H4.
    + destruct (String.eqb_spec (name err) "NotAllowedError") as [E|E];
        [easy|].
      destruct (name err =? "NotFoundError"); [discriminate|].
      destruct (name err =? "NotSupportedError"); [discriminate|].
      destruct (name err =? "AbortError"); discriminate.
Qed.

Lemma rejection_classification_witness :
  permissionState (state (step (after [Start]) (Reject requestAborted)))
  = CANCELLED.
Proof.
  exact (proj1 (rejection_classification (after [Start]) requestAborted
                  eq_refl) eq_refl).
Defined.

Lemma getDisplayType_unknown (track : MediaStreamTrack) :
  getDisplayType track = unknown <->
  displaySurface (getSettings track) <> Some "monitor"
  /\ displaySurface (getSettings track) <> Some "window"
  /\ displaySurface (getSettings track) <> Some "browser".
Proof.
  unfold getDisplayType.
  destruct (displaySurface (getSettings track)) as [surface|].
  - destruct (String.eqb_spec surface "monitor") as [->|Hm].
    { split; [discriminate | intros [H _]; now elim H]. }
    destruct (String.eqb_spec surface "window") as [->|Hw].
    { split; [discriminate | intros [_ [H _]]; now elim H]. }
    destruct (String.eqb_spec surface "browser") as [->|Hb].
    { split; [discriminate | intros [_ [_ H]]; now elim H]. }
    split; [|reflexivity]. intros _. repeat split; congruence.
  - split; [|reflexivity]. intros _. repeat split; discriminate.
Qed.

Lemma resolve_state_mounted (w : World) (ms : MediaStream) (md : StreamMetadata) :
  isMountedRef w = true ->
  extractMetadata ms = Ok md ->
  state (step w (Resolve ms))
  = mkState GRANTED (Some ms) (Some md) (error (state w)) true.
Proof.
  intros Hm Hmd. simpl. rewrite rerender_state.
  unfold seq, requestGranted. rewrite Hmd. unfold seq.
  destruct (getVideoTracks ms); simpl; rewrite Hm; reflexivity.
Qed.

(** C6. On a stream with a video track [extractMetadata] returns a
    record and does not throw: the display type is [unknown] exactly
    when the reported surface is none of monitor, window and browser (an
    absent one included), and a width, height or frame rate that is not
    reported is 0.  With settings that report nothing the record is
    [{unknown, 0, 0, 0}], and a mounted hook that receives the stream is
    [GRANTED] with that record as its metadata. *)
Theorem extractMetadata_total
    (ms : MediaStream) (track : MediaStreamTrack) (rest : list MediaStreamTrack) :
  getVideoTracks ms = track :: rest ->
  let settings := getSettings track in
  exists md,
    extractMetadata ms = Ok md
    /\ (displayType md = unknown <->
        displaySurface settings <> Some "monitor"
        /\ displaySurface settings <> Some "window"
        /\ displaySurface settings <> Some "browser")
    /\ (Platform.width settings = None -> Types.width md = zero)
    /\ (Platform.height settings = None -> Types.height md = zero)
    /\ (Platform.frameRate settings = None -> Types.frameRate md = zero)
    /\ (settings = bareSettings ->
        md = mkMetadata unknown zero zero zero
        /\ forall w, isMountedRef w = true ->
             permissionState (state (step w (Resolve ms))) = GRANTED
             /\ metadata (state (step w (Resolve ms))) = Some md).
Proof.
  intros Hv settings.
  assert (Hmd : extractMetadata ms
                = Ok (mkMetadata (getDisplayType track)
                        (orZero (Platform.width settings))
                        (orZero (Platform.height settings))
                        (orZero (Platform.frameRate settings))))
    by (unfold extractMetadata; now rewrite Hv).
  eexists. split; [exact Hmd|]. cbn [displayType Types.width Types.height Types.frameRate].
  split; [apply getDisplayType_unknown|].
  split; [now intros ->|]. split; [now intros ->|]. split; [now intros ->|].
  intros Hbare. split.
  - unfold getDisplayType. fold settings. now rewrite Hbare.
  - intros w Hm. rewrite (resolve_state_mounted w ms _ Hm Hmd). now split.
Qed.

(** Scenario B: the first grant, with settings that report nothing. *)
Lemma extractMetadata_total_witness :
  exists md,
    extractMetadata bareStream = Ok md
    /\ md = mkMetadata unknown zero zero zero
    /\ permissionState (state (after [Start; Resolve bareStream])) = GRANTED
    /\ metadata (state (after [Start; Resolve bareStream])) = Some md.
Proof.
  destruct (extractMetadata_total bareStream (mkTrack video bareSettings) []
              eq_refl) as [md [Hmd [_ [_ [_ [_ Hbare]]]]]].
  destruct (Hbare eq_refl) as [Heq Hgrant].
  exists md. split; [exact Hmd|]. split; [exact Heq|].
  exact (Hgrant (after [Start]) eq_refl).
Defined.

End HookFacts.

(* ================================================================== *)
(** ** The hook: reachable worlds *)
(* ================================================================== *)

Module LifecycleFacts.
Import JsString JsStringFacts Types Platform Hook Page Samples Invariants HookFacts.

Lemma runBy_reachableBy (allowed : World -> Event -> bool)
    (events : list Event) (w w' : World) :
  reachableBy allowed w -> runBy allowed w events = Some w' ->
  reachableBy allowed w'.
Proof.
  revert w. induction events as [|e rest IH]; intros w Hw; simpl.
  - intros [= <-]. exact Hw.
  - destruct (allowed w e) eqn:He; [|discriminate].
    apply IH. now apply reach_step.
Qed.

Lemma after_reachable (events : list Event) : reachable (after events).
Proof.
  unfold after. destruct (run initial events) as [w|] eqn:Hrun.
  - apply (runBy_reachableBy enabled events initial w); [constructor | exact Hrun].
  - constructor.
Qed.

(** The page's events are events of the hook. *)
Lemma pageReachable_reachable (w : World) : pageReachable w -> reachable w.
Proof.
  induction 1 as [|w e _ IH He]; [constructor|].
  apply reach_step; [exact IH|].
  unfold offers in He. now apply andb_true_iff in He.
Qed.

Lemma classify_rest (err : JsError) : isRest (classify err) = true.
Proof.
  unfold classify.
  repeat match goal with |- context [if ?b then _ else _] => destruct b end;
    reflexivity.
Qed.

Lemma mem_nonempty (i : nat) (l : list nat) : mem i l = true -> l <> [].
Proof. destruct l; [discriminate | discriminate]. Qed.

Lemma initial_Inv : Inv initial.
Proof. constructor; simpl; try reflexivity; try discriminate; congruence. Qed.

(** One step on a world taken apart into its cells: compute, settle
    the identity test of the effect dependencies, compute again. *)
Ltac unfold_hook :=
  cbv beta iota zeta delta
    [step handler rerender unmount effectCleanup requestScreenShare
     stopScreenShare handleStreamEnd requestFailed requestGranted
     extractMetadata cleanupStream seq skip update setMounted setRendered
     getDisplayMedia settle acquire setOnended sameStream
     setPermissionState setStream setMetadata setError setIsActive
     state isMountedRef rendered inFlight displayMediaCalls acquired cleaned
     onended permissionState stream metadata error isActive present negb
     isRest].

Ltac run_step :=
  unfold_hook; rewrite ?Nat.eqb_refl; unfold_hook.

Ltac close_Inv :=
  constructor; unfold_hook; auto; try discriminate; try congruence.

Lemma step_Inv (w : World) (e : Event) :
  Inv w -> enabled w e = true -> Inv (step w e).
Proof.
  intros [Hpair Hact Hflag Hlis Hdis Hgr Hheld Hrest] He.
  destruct w as [[p s m er a] mt r n c ac cl on].
  cbn [state isMountedRef rendered inFlight displayMediaCalls acquired
       cleaned onended permissionState stream metadata error isActive] in *.
  destruct e as [| |ms|err|i|].
  - (* Start *)
    destruct s as [s|]; run_step; close_Inv.
  - (* Stop *)
    destruct s as [s|].
    + specialize (Hflag eq_refl). subst mt. run_step. close_Inv.
    + run_step. close_Inv.
  - (* Resolve *)
    unfold_hook.
    destruct (getVideoTracks ms) as [|track tracks];
      [pose proof (classify_rest noVideoTrack) as Hc;
       remember (classify noVideoTrack) as q eqn:Hq; clear Hq
      |remember (mkMetadata _ _ _ _) as md eqn:Hmd; clear Hmd];
      destruct s as [s|];
      try (specialize (Hflag eq_refl); subst mt);
      try destruct mt; run_step; close_Inv.
    all: try (intros H; apply Hlis; intros E; now rewrite E in H).
    all: try (intros ->; discriminate).
  - (* Reject *)
    pose proof (classify_rest err) as Hc.
    unfold_hook. remember (classify err) as q eqn:Hq. clear Hq.
    destruct s as [s|];
      try (specialize (Hflag eq_refl); subst mt);
      try destruct mt; run_step; close_Inv.
    all: try (intros ->; discriminate).
  - (* TrackEnded *)
    cbn in He. apply mem_nonempty in He. specialize (Hlis He). subst mt.
    destruct s as [s|]; run_step; close_Inv.
  - (* Unmount *)
    destruct s as [s|]; run_step; close_Inv.
Qed.

Lemma reachable_Inv (w : World) : reachable w -> Inv w.
Proof.
  induction 1 as [|w e _ IH He]; [apply initial_Inv | now apply step_Inv].
Qed.

Lemma initial_PageInv : PageInv initial.
Proof. constructor; simpl; try discriminate; auto. Qed.

Ltac close_PageInv :=
  constructor; unfold_hook; auto; try discriminate; try congruence; try lia.

Lemma step_PageInv (w : World) (e : Event) :
  Inv w -> PageInv w -> offers w e = true -> PageInv (step w e).
Proof.
  intros [_ _ Hflag Hlis _ _ _ _] [Hone Hreq Herr Hstr] He.
  unfold offers in He. apply andb_true_iff in He. destruct He as [He Hoff].
  destruct w as [[p s m er a] mt r n c ac cl on].
  cbn [state isMountedRef rendered inFlight displayMediaCalls acquired
       cleaned onended permissionState stream metadata error isActive] in *.
  destruct e as [| |ms|err|i|].
  - (* Start: no request is outstanding when the page offers it *)
    assert (Hn : n = 0).
    { destruct n as [|[|n]]; [reflexivity | | lia].
      destruct (Hreq eq_refl) as [-> _].
      unfold offersStart, showInitialButton, isRequesting, showRetry in Hoff.
      cbn in Hoff. destruct a; discriminate Hoff. }
    subst n. destruct s as [s|].
    { specialize (Hstr eq_refl). subst p.
      unfold offersStart, showInitialButton, isRequesting, showRetry in Hoff.
      cbn in Hoff. rewrite andb_false_r in Hoff. discriminate Hoff. }
    run_step. close_PageInv.
  - (* Stop *)
    destruct s as [s|].
    + specialize (Hflag eq_refl). subst mt. run_step. close_PageInv.
    + run_step. close_PageInv.
  - (* Resolve *)
    assert (Hn : n = 1).
    { cbn in He. apply andb_true_iff in He. destruct He as [He _].
      destruct n as [|n]; [discriminate He | lia]. }
    subst n. destruct (Hreq eq_refl) as [-> Hnone].
    destruct er as [er|]; [discriminate Hnone|].
    unfold_hook.
    destruct (getVideoTracks ms) as [|track tracks];
      [pose proof (classify_rest noVideoTrack) as Hc;
       remember (classify noVideoTrack) as q eqn:Hq; clear Hq
      |remember (mkMetadata _ _ _ _) as md eqn:Hmd; clear Hmd];
      destruct s as [s|];
      try (specialize (Hflag eq_refl); subst mt);
      try destruct mt; run_step; close_PageInv.
  - (* Reject *)
    assert (Hn : n = 1).
    { cbn in He. destruct n as [|n]; [discriminate He | lia]. }
    subst n. destruct (Hreq eq_refl) as [-> Hnone].
    destruct er as [er|]; [discriminate Hnone|].
    pose proof (classify_rest err) as Hc.
    unfold_hook. remember (classify err) as q eqn:Hq. clear Hq.
    destruct s as [s|];
      try (specialize (Hflag eq_refl); subst mt);
      try destruct mt; run_step; close_PageInv.
  - (* TrackEnded *)
    cbn in He. apply mem_nonempty in He. specialize (Hlis He). subst mt.
    destruct s as [s|]; run_step; close_PageInv.
  - (* Unmount *)
    destruct s as [s|]; run_step; close_PageInv.
Qed.

Lemma pageReachable_PageInv (w : World) : pageReachable w -> PageInv w.
Proof.
  induction 1 as [|w e Hw IH He]; [apply initial_PageInv|].
  apply step_PageInv; [|exact IH|exact He].
  apply reachable_Inv, pageReachable_reachable, Hw.
Qed.

Lemma pageAfter_reachable (events : list Event) :
  pageReachable (pageAfter events).
Proof.
  unfold pageAfter. destruct (pageRun initial events) as [w|] eqn:Hrun.
  - apply (runBy_reachableBy offers events initial w); [constructor | exact Hrun].
  - constructor.
Qed.

(** *** Start *)

Lemma start_world (w : World) :
  step w Start
  = mkWorld
      (mkState REQUESTING (stream (state w)) (metadata (state w)) None
         (isActive (state w)))
      (isMountedRef w) (rendered w) (S (inFlight w))
      (S (displayMediaCalls w)) (acquired w) (cleaned w) (onended w).
Proof.
  destruct w as [[p s m er a] mt r n c ac cl on].
  destruct s as [s|]; run_step; reflexivity.
Qed.

Lemma offersStart_phase (s : ScreenShareState) :
  offersStart s = true ->
  permissionState s <> REQUESTING /\ permissionState s <> GRANTED.
Proof.
  destruct s as [p s m er a].
  unfold offersStart, showInitialButton, isRequesting, showRetry; cbn.
  destruct p; cbn; rewrite ?andb_false_r; cbn;
    intros H; split; try discriminate.
Qed.

(** While a stream is active, and while a request is outstanding, a call
    of [requestScreenShare] makes one more platform request; from
    [GRANTED] it also changes the state. *)
Lemma start_while_busy_requests_again :
  (let w := after [Start; Resolve monitorStream] in
   reachable w
   /\ permissionState (state w) = GRANTED
   /\ enabled w Start = true
   /\ displayMediaCalls w = 1
   /\ displayMediaCalls (step w Start) = 2
   /\ state (step w Start) <> state w)
  /\ (let w := after [Start] in
      reachable w
      /\ permissionState (state w) = REQUESTING
      /\ enabled w Start = true
      /\ displayMediaCalls w = 1
      /\ displayMediaCalls (step w Start) = 2
      /\ inFlight (step w Start) = 2).
Proof.
  split; cbv zeta.
  - split; [apply after_reachable|].
    repeat split; try reflexivity. discriminate.
  - split; [apply after_reachable|].
    repeat split; reflexivity.
Qed.

(** C1 (as amended). [requestScreenShare] has no guard: in every state,
    [REQUESTING] and [GRANTED] included, it makes one more platform
    request, clears [error] and sets the phase to [REQUESTING], and it
    leaves [stream], [metadata] and [isActive] as they are.  The gate is
    in the page: it offers a start button only in the phases [IDLE],
    [CANCELLED], [DENIED] and [ERROR], and when the page is the only
    caller at most one request is outstanding, and none when a start
    button is offered. *)
Theorem requestScreenShare_unguarded (w : World) :
  let w' := step w Start in
  displayMediaCalls w' = S (displayMediaCalls w)
  /\ inFlight w' = S (inFlight w)
  /\ state w'
     = mkState REQUESTING (stream (state w)) (metadata (state w)) None
         (isActive (state w))
  /\ (offersStart (state w) = true ->
      permissionState (state w) <> REQUESTING
      /\ permissionState (state w) <> GRANTED)
  /\ (pageReachable w ->
      inFlight w <= 1 /\ (offers w Start = true -> inFlight w = 0)).
Proof.
  cbv zeta. rewrite start_world. cbn [displayMediaCalls inFlight state].
  split; [reflexivity|]. split; [reflexivity|]. split; [reflexivity|].
  split; [apply offersStart_phase|].
  intros Hpage. apply pageReachable_PageInv in Hpage as [Hone Hreq _ _].
  split; [exact Hone|]. intros Hoff.
  unfold offers in Hoff. apply andb_true_iff in Hoff. destruct Hoff as [_ Hoff].
  apply offersStart_phase in Hoff. destruct Hoff as [Hoff _].
  destruct (inFlight w) as [|[|n]]; [reflexivity | | lia].
  destruct (Hreq eq_refl) as [Hp _]. contradiction.
Qed.

Lemma requestScreenShare_unguarded_witness :
  let w := pageAfter [Start; Reject pickerDismissed] in
  displayMediaCalls (step w Start) = 2
  /\ permissionState (state w) <> REQUESTING
  /\ inFlight w = 0.
Proof.
  cbv zeta.
  destruct (requestScreenShare_unguarded
              (pageAfter [Start; Reject pickerDismissed]))
    as [Hcalls [_ [_ [Hgate Hpage]]]].
  split; [exact Hcalls|].
  split; [exact (proj1 (Hgate eq_refl))|].
  exact (proj2 (Hpage (pageAfter_reachable _)) eq_refl).
Defined.

(** *** The error cell *)

(** A dismissed picker ends in [CANCELLED] with the raw error stored. *)
Lemma cancelled_stores_error :
  let w := after [Start; Reject pickerDismissed] in
  reachable w
  /\ permissionState (state w) = CANCELLED
  /\ error (state w) = Some pickerDismissed
  /\ error (state w) <> None.
Proof.
  cbv zeta. split; [apply after_reachable|].
  repeat split; try reflexivity. discriminate.
Qed.

(** With two requests outstanding the error of the first rejection
    survives the grant of the second. *)
Example error_survives_second_grant :
  let w := after [Start; Start; Reject permissionDenied; Resolve monitorStream] in
  permissionState (state w) = GRANTED
  /\ error (state w) = Some permissionDenied.
Proof. split; reflexivity. Qed.

(** C3 (as amended). In every reachable state the error is present
    whenever the phase is [CANCELLED], [DENIED] or [ERROR]: a rejection
    that reaches a mounted hook stores the raw error for every
    classification, [CANCELLED] included.  When the page is the only
    caller the error is present in exactly these three phases. *)
Theorem error_present_in_rest_phases (w : World) :
  reachable w ->
  (isRest (permissionState (state w)) = true ->
   present (error (state w)) = true)
  /\ (pageReachable w ->
      (present (error (state w)) = true <->
       isRest (permissionState (state w)) = true))
  /\ (forall err,
        isMountedRef w = true -> classify err = CANCELLED ->
        permissionState (state (step w (Reject err))) = CANCELLED
        /\ error (state (step w (Reject err))) = Some err).
Proof.
  intros Hw. pose proof (reachable_Inv w Hw) as HI.
  split; [apply (inv_rest w HI)|]. split.
  - intros Hpage. apply pageReachable_PageInv in Hpage.
    split; [apply (pinv_error w Hpage) | apply (inv_rest w HI)].
  - intros err Hm Hc. rewrite (reject_state_mounted w err Hm).
    cbn [permissionState error]. now split.
Qed.

Lemma error_present_in_rest_phases_witness :
  let w := pageAfter [Start; Reject pickerDismissed; Start] in
  (present (error (state w)) = true <->
   isRest (permissionState (state w)) = true)
  /\ permissionState (state (step w (Reject pickerDismissed))) = CANCELLED
  /\ error (state (step w (Reject pickerDismissed))) = Some pickerDismissed.
Proof.
  cbv zeta.
  destruct (error_present_in_rest_phases
              (pageAfter [Start; Reject pickerDismissed; Start])
              (pageReachable_reachable _ (pageAfter_reachable _)))
    as [_ [Hiff Hcancel]].
  split; [exact (Hiff (pageAfter_reachable _))|].
  exact (Hcancel pickerDismissed eq_refl eq_refl).
Defined.

(** *** Stream and metadata *)

(** A start while a stream is held leaves the stream and its metadata
    in a [REQUESTING] state. *)
Lemma stream_held_while_requesting :
  let w := after [Start; Resolve monitorStream; Start] in
  reachable w
  /\ permissionState (state w) = REQUESTING
  /\ present (stream (state w)) = true
  /\ present (metadata (state w)) = true
  /\ ~ heldIffGranted w.
Proof.
  cbv zeta. split; [apply after_reachable|].
  repeat split; try reflexivity.
  intros [H _]. discriminate (H eq_refl).
Qed.

(** Every event but a start keeps "held exactly when [GRANTED]". *)
Lemma step_heldIffGranted (w : World) (e : Event) :
  Inv w -> e <> Start -> enabled w e = true ->
  heldIffGranted w -> heldIffGranted (step w e).
Proof.
  intros [_ _ Hflag Hlis _ _ _ _] Hne He Hiff. unfold heldIffGranted in *.
  destruct w as [[p s m er a] mt r n c ac cl on].
  cbn [state isMountedRef rendered inFlight displayMediaCalls acquired
       cleaned onended permissionState stream metadata error isActive] in *.
  destruct e as [| |ms|err|i|].
  - now elim Hne.
  - destruct s as [s|].
    + specialize (Hflag eq_refl). subst mt. run_step. exact Hiff.
    + run_step. exact Hiff.
  - unfold_hook.
    destruct (getVideoTracks ms) as [|track tracks];
      [pose proof (classify_rest noVideoTrack) as Hc;
       remember (classify noVideoTrack) as q eqn:Hq; clear Hq
      |remember (mkMetadata _ _ _ _) as md eqn:Hmd; clear Hmd];
      destruct s as [s|];
      try (specialize (Hflag eq_refl); subst mt);
      try destruct mt; run_step; try exact Hiff;
      split; try discriminate; try reflexivity.
    intros ->. discriminate Hc.
  - pose proof (classify_rest err) as Hc.
    unfold_hook. remember (classify err) as q eqn:Hq. clear Hq.
    destruct s as [s|];
      try (specialize (Hflag eq_refl); subst mt);
      try destruct mt; run_step; try exact Hiff;
      split; try discriminate.
    intros ->. discriminate Hc.
  - cbn in He. apply mem_nonempty in He. specialize (Hlis He). subst mt.
    destruct s as [s|]; run_step; exact Hiff.
  - destruct s as [s|]; run_step; exact Hiff.
Qed.

(** C5 (as amended). In every reachable state [stream] and [metadata]
    are both present or both absent; they are present in [GRANTED], and
    they are present only in [GRANTED] or, after a start issued while a
    stream was held, in [REQUESTING].  Stop, external termination,
    unmounting and the settling of a request keep "present exactly in
    [GRANTED]"; a start does not, and when the page is the only caller
    the two are present exactly in [GRANTED]. *)
Theorem stream_and_metadata_together (w : World) :
  reachable w ->
  present (stream (state w)) = present (metadata (state w))
  /\ (permissionState (state w) = GRANTED ->
      present (stream (state w)) = true)
  /\ (present (stream (state w)) = true ->
      permissionState (state w) = GRANTED
      \/ permissionState (state w) = REQUESTING)
  /\ (forall e, e <> Start -> enabled w e = true ->
      heldIffGranted w -> heldIffGranted (step w e))
  /\ (pageReachable w -> heldIffGranted w).
Proof.
  intros Hw. pose proof (reachable_Inv w Hw) as HI.
  split; [apply (inv_pair w HI)|].
  split; [apply (inv_granted w HI)|].
  split; [apply (inv_held w HI)|].
  split; [intros e; now apply step_heldIffGranted|].
  intros Hpage. apply pageReachable_PageInv in Hpage.
  split; [apply (pinv_stream w Hpage) | apply (inv_granted w HI)].
Qed.

Lemma stream_and_metadata_together_witness :
  let w := pageAfter [Start; Resolve monitorStream] in
  present (stream (state w)) = present (metadata (state w))
  /\ heldIffGranted (step w Stop)
  /\ heldIffGranted w.
Proof.
  cbv zeta.
  destruct (stream_and_metadata_together
              (pageAfter [Start; Resolve monitorStream])
              (pageReachable_reachable _ (pageAfter_reachable _)))
    as [Hpair [_ [_ [Hkeep Hpage]]]].
  pose proof (Hpage (pageAfter_reachable _)) as Hiff.
  split; [exact Hpair|]. split; [|exact Hiff].
  apply (Hkeep Stop); [discriminate | reflexivity | exact Hiff].
Defined.

(** *** Stop *)

Lemma stop_without_stream (w : World) :
  stream (state w) = None -> step w Stop = w.
Proof.
  destruct w as [[p s m er a] mt r n c ac cl on]. cbn [state stream].
  intros ->. run_step. reflexivity.
Qed.

(** In a reachable world that holds a stream the flag [isMountedRef] is
    already cleared, so [stopScreenShare] stops the tracks and writes
    nothing. *)
Lemma stop_with_stream (w : World) (s : MediaStream) :
  reachable w -> stream (state w) = Some s ->
  state (step w Stop) = state w
  /\ cleaned (step w Stop) = (cleaned w ++ [id s])%list.
Proof.
  intros Hw Hs. pose proof (reachable_Inv w Hw) as [_ _ Hflag _ _ _ _ _].
  destruct w as [[p s' m er a] mt r n c ac cl on].
  cbn [state stream isMountedRef cleaned] in *. subst s'.
  specialize (Hflag eq_refl). subst mt. run_step. now split.
Qed.

(** [stopScreenShare] never changes the state of a reachable world. *)
Lemma stop_never_clears (w : World) :
  reachable w -> state (step w Stop) = state w.
Proof.
  intros Hw. destruct (stream (state w)) as [s|] eqn:Hs.
  - apply (stop_with_stream w s Hw Hs).
  - now rewrite stop_without_stream.
Qed.

(** C8. The hook at the events start, grant, stop, stop: the first stop
    stops the tracks of the stream and leaves the phase [GRANTED] with
    stream and metadata in place; the second stop stops the tracks
    again. *)
Theorem stop_after_grant_keeps_state :
  let w := after [Start; Resolve monitorStream] in
  let w1 := step w Stop in
  let w2 := step w1 Stop in
  permissionState (state w) = GRANTED
  /\ enabled w Stop = true
  /\ state w1 = state w
  /\ permissionState (state w1) = GRANTED
  /\ stream (state w1) = Some monitorStream
  /\ present (metadata (state w1)) = true
  /\ releases (id monitorStream) w1 = 1
  /\ enabled w1 Stop = true
  /\ releases (id monitorStream) w2 = 2.
Proof. vm_compute. repeat split; reflexivity. Qed.




(** *** Release of the acquired streams *)

(** C2. Two runs of the hook.  A granted stream without a video track is
    never passed to [cleanupStream], not even at unmount; a stream that
    is stopped with the button and then meets the unmount cleanup is
    passed to it twice. *)
Theorem release_not_exactly_once :
  (exists w,
      run initial [Start; Resolve tracklessStream; Unmount] = Some w
      /\ acquired w = [id tracklessStream]
      /\ releases (id tracklessStream) w = 0)
  /\ (exists w,
      run initial [Start; Resolve monitorStream; Stop; Unmount] = Some w
      /\ acquired w = [id monitorStream]
      /\ releases (id monitorStream) w = 2).
Proof.
  split.
  - exists (after [Start; Resolve tracklessStream; Unmount]).
    vm_compute. repeat split; reflexivity.
  - exists (after [Start; Resolve monitorStream; Stop; Unmount]).
    vm_compute. repeat split; reflexivity.
Qed.

(** A stream with a video track that arrives after the flag was cleared
    is cleaned up at once and nothing is written. *)
Lemma late_grant_with_track (w : World) (ms : MediaStream) :
  isMountedRef w = false -> getVideoTracks ms <> [] ->
  state (step w (Resolve ms)) = state w
  /\ cleaned (step w (Resolve ms)) = (cleaned w ++ [id ms])%list.
Proof.
  intros Hm Hv.
  destruct w as [[p s m er a] mt r n c ac cl on].
  cbn [isMountedRef] in Hm. subst mt. unfold_hook.
  destruct (getVideoTracks ms) as [|track tracks]; [now elim Hv|].
  destruct s as [s|]; run_step; now split.
Qed.

(** C7. The hook at the events start, unmount, grant of a stream without
    a video track: the state is not written, and the granted stream is
    not passed to [cleanupStream]. *)
Theorem late_grant_without_track_leaks :
  exists w,
    run initial [Start; Unmount; Resolve tracklessStream] = Some w
    /\ state w = state (after [Start; Unmount])
    /\ acquired w = [id tracklessStream]
    /\ cleaned w = []
    /\ releases (id tracklessStream) w = 0.
Proof.
  exists (after [Start; Unmount; Resolve tracklessStream]).
  vm_compute. repeat split; reflexivity.
Qed.

End LifecycleFacts.

(* ================================================================== *)
(** ** The hook: what the cleared flag does to the lifecycle *)
(* ================================================================== *)

Module FlagFacts.
Import JsString JsStringFacts Types Platform Hook Page Samples Invariants
  HookFacts LifecycleFacts Traces.

(** Taking a world apart into its cells. *)
Ltac cells w :=
  destruct w as [[?p ?s ?m ?er ?a] ?mt ?r ?n ?c ?ac ?cl ?on];
  cbn [state isMountedRef rendered inFlight displayMediaCalls acquired
       cleaned onended permissionState stream metadata error isActive] in *.

(** With the flag cleared every handler but [requestScreenShare] leaves
    the state alone, and no handler sets the flag. *)
Lemma step_flagless (w : World) (e : Event) :
  isMountedRef w = false ->
  isMountedRef (step w e) = false
  /\ (e <> Start -> state (step w e) = state w).
Proof.
  intros Hm. cells w. subst mt.
  destruct e as [| |ms|err|i|].
  - destruct s as [s|]; run_step; (split; [reflexivity | now intros H]).
  - destruct s as [s|]; run_step; now split.
  - unfold_hook. destruct (getVideoTracks ms) as [|track tracks];
      destruct s as [s|]; run_step; now split.
  - destruct s as [s|]; run_step; now split.
  - destruct s as [s|]; run_step; now split.
  - destruct s as [s|]; run_step; now split.
Qed.

Lemma step_rendered (w : World) (e : Event) :
  rendered w = false -> rendered (step w e) = false.
Proof.
  intros Hr. cells w. subst r.
  destruct e as [| |ms|err|i|].
  - destruct s as [s|]; run_step; reflexivity.
  - destruct s as [s|]; destruct mt; run_step; reflexivity.
  - unfold_hook. destruct (getVideoTracks ms) as [|track tracks];
      destruct s as [s|]; destruct mt; run_step;
      try reflexivity; destruct (id s =? id ms)%nat; reflexivity.
  - destruct s as [s|]; destruct mt; run_step; reflexivity.
  - destruct s as [s|]; destruct mt; run_step; reflexivity.
  - destruct s as [s|]; run_step; reflexivity.
Qed.

Lemma run_cons (w : World) (e : Event) (rest : list Event) (w' : World) :
  run w (e :: rest) = Some w' ->
  enabled w e = true /\ run (step w e) rest = Some w'.
Proof.
  unfold run. simpl. destruct (enabled w e); [now split | discriminate].
Qed.

Lemma run_reachable (w w' : World) (events : list Event) :
  reachable w -> run w events = Some w' -> reachable w'.
Proof. apply runBy_reachableBy. Qed.

(** X1. In every reachable state that holds a stream, or in which an
    [onended] listener was installed, [isMountedRef.current] is false. *)
Theorem flag_cleared_once_a_stream_is_stored (w : World) :
  reachable w ->
  present (stream (state w)) = true \/ onended w <> [] ->
  isMountedRef w = false.
Proof.
  intros Hw [H|H]; apply reachable_Inv in Hw.
  - now apply (inv_flag w Hw).
  - now apply (inv_listener w Hw).
Qed.

Lemma flag_cleared_once_a_stream_is_stored_witness :
  let w := after [Start; Resolve monitorStream] in
  rendered w = true /\ isMountedRef w = false.
Proof.
  cbv zeta. split; [reflexivity|].
  apply (flag_cleared_once_a_stream_is_stored
           (after [Start; Resolve monitorStream]) (after_reachable _)).
  left. reflexivity.
Defined.

(** X2. Nothing sets [isMountedRef.current] back: once it is false it
    is false after every further list of events. *)
Theorem flag_never_set_again (w w' : World) (events : list Event) :
  isMountedRef w = false -> run w events = Some w' ->
  isMountedRef w' = false.
Proof.
  revert w. induction events as [|e rest IH]; intros w Hm Hrun.
  - now injection Hrun as <-.
  - apply run_cons in Hrun as [_ Hrun].
    apply (IH (step w e)); [apply (step_flagless w e Hm) | exact Hrun].
Qed.

Lemma flag_never_set_again_witness :
  isMountedRef (after [Start; Resolve monitorStream; Stop; Start]) = false.
Proof.
  apply (flag_never_set_again (after [Start; Resolve monitorStream])
           (after [Start; Resolve monitorStream; Stop; Start])
           [Stop; Start]); vm_compute; reflexivity.
Defined.

(** X3. Whenever the [ended] event of a track can reach the hook,
    [handleStreamEnd] changes nothing: the phase is not reset, the
    stream stays in the state and is not cleaned up. *)
Theorem track_end_changes_nothing (w : World) (i : nat) :
  reachable w -> enabled w (TrackEnded i) = true ->
  step w (TrackEnded i) = w.
Proof.
  intros Hw He. apply reachable_Inv in Hw.
  cbn in He. apply mem_nonempty in He.
  pose proof (inv_listener w Hw He) as Hm.
  cells w. subst mt. destruct s as [s|]; run_step; reflexivity.
Qed.

Lemma track_end_changes_nothing_witness :
  let w := after [Start; Resolve monitorStream] in
  step w (TrackEnded (id monitorStream)) = w
  /\ permissionState (state w) = GRANTED.
Proof.
  cbv zeta. split; [|reflexivity].
  apply (track_end_changes_nothing (after [Start; Resolve monitorStream])
           (id monitorStream) (after_reachable _)).
  reflexivity.
Defined.

(** With the flag cleared a start is the only event that writes the
    state, and what it writes is the phase and the error. *)
Lemma run_flagless (w w' : World) (events : list Event) :
  isMountedRef w = false -> run w events = Some w' ->
  stream (state w') = stream (state w)
  /\ metadata (state w') = metadata (state w)
  /\ isActive (state w') = isActive (state w)
  /\ (starts events = 0 -> state w' = state w)
  /\ (starts events <> 0 ->
      permissionState (state w') = REQUESTING /\ error (state w') = None).
Proof.
  revert w. induction events as [|e rest IH]; intros w Hm Hrun.
  - injection Hrun as <-.
    split; [reflexivity|]. split; [reflexivity|]. split; [reflexivity|].
    split; [reflexivity|]. intros Hpos. now elim Hpos.
  - apply run_cons in Hrun as [_ Hrun].
    destruct (step_flagless w e Hm) as [Hm' Hstate].
    destruct (IH (step w e) Hm' Hrun) as [Hs [Hmd [Ha [Hzero Hpos]]]].
    destruct e as [| |ms|err|i|];
      try (unfold starts; cbn [filter isStart]; fold (starts rest);
           rewrite <- (Hstate ltac:(discriminate));
           exact (conj Hs (conj Hmd (conj Ha (conj Hzero Hpos))))).
    rewrite start_world in Hs, Hmd, Ha, Hzero.
    cbn [state stream metadata isActive] in Hs, Hmd, Ha, Hzero.
    split; [exact Hs|]. split; [exact Hmd|]. split; [exact Ha|].
    split; [discriminate|]. intros _.
    destruct (Nat.eq_dec (starts rest) 0) as [Hz|Hz].
    + rewrite (Hzero Hz). now split.
    + apply (Hpos Hz).
Qed.

(** X4. A stream that is in the state stays there: after every further
    list of events the state holds the same stream and the same
    metadata, and [isActive] is still true. *)
Theorem stored_stream_is_never_cleared
    (w w' : World) (s : MediaStream) (events : list Event) :
  reachable w -> stream (state w) = Some s -> run w events = Some w' ->
  stream (state w') = Some s
  /\ metadata (state w') = metadata (state w)
  /\ isActive (state w') = true.
Proof.
  intros Hw Hs Hrun. apply reachable_Inv in Hw.
  assert (Hm : isMountedRef w = false)
    by (apply (inv_flag w Hw); now rewrite Hs).
  destruct (run_flagless w w' events Hm Hrun) as [H1 [H2 [H3 _]]].
  rewrite H1, H2, H3, (inv_active w Hw), Hs. now repeat split.
Qed.

Lemma stored_stream_is_never_cleared_witness :
  let w' := after [Start; Resolve monitorStream; Stop;
                   TrackEnded (id monitorStream); Start;
                   Reject permissionDenied] in
  stream (state w') = Some monitorStream /\ isActive (state w') = true.
Proof.
  cbv zeta.
  destruct (stored_stream_is_never_cleared
              (after [Start; Resolve monitorStream])
              (after [Start; Resolve monitorStream; Stop;
                      TrackEnded (id monitorStream); Start;
                      Reject permissionDenied])
              monitorStream
              [Stop; TrackEnded (id monitorStream); Start;
               Reject permissionDenied]
              (after_reachable _) eq_refl)
    as [Hs [_ Ha]]; [vm_compute; reflexivity|].
  now split.
Defined.

(** X5. Once the flag is cleared, a request that is started is never
    answered in the state: whatever the platform and the user do next,
    the phase is [REQUESTING] and the error is empty. *)
Theorem request_after_flag_cleared_stays_requesting
    (w w' : World) (events : list Event) :
  isMountedRef w = false -> run w events = Some w' ->
  starts events <> 0 ->
  permissionState (state w') = REQUESTING /\ error (state w') = None.
Proof.
  intros Hm Hrun Hpos.
  destruct (run_flagless w w' events Hm Hrun) as [_ [_ [_ [_ H]]]].
  now apply H.
Qed.

Lemma request_after_flag_cleared_stays_requesting_witness :
  let w' := after [Start; Resolve monitorStream; Start;
                   Resolve bareStream] in
  permissionState (state w') = REQUESTING /\ error (state w') = None.
Proof.
  apply (request_after_flag_cleared_stays_requesting
           (after [Start; Resolve monitorStream])
           (after [Start; Resolve monitorStream; Start; Resolve bareStream])
           [Start; Resolve bareStream]);
    [reflexivity | vm_compute; reflexivity | discriminate].
Defined.

(** X6. The state of a hook whose component has left the tree is never
    written again, whatever arrives later. *)
Theorem unmounted_hook_is_never_written
    (w w' : World) (events : list Event) :
  reachable w -> rendered w = false -> run w events = Some w' ->
  state w' = state w.
Proof.
  intros Hw Hr Hrun.
  assert (Hm : isMountedRef w = false)
    by (apply (inv_disposed w (reachable_Inv w Hw)), Hr).
  clear Hw. revert w Hr Hm Hrun.
  induction events as [|e rest IH]; intros w Hr Hm Hrun.
  - now injection Hrun as <-.
  - apply run_cons in Hrun as [He Hrun].
    destruct (step_flagless w e Hm) as [Hm' Hstate].
    rewrite (IH (step w e) (step_rendered w e Hr) Hm' Hrun).
    apply Hstate. intros ->. cbn in He. congruence.
Qed.

Lemma unmounted_hook_is_never_written_witness :
  state (after [Start; Unmount; Resolve monitorStream])
  = state (after [Start; Unmount]).
Proof.
  apply (unmounted_hook_is_never_written (after [Start; Unmount])
           (after [Start; Unmount; Resolve monitorStream])
           [Resolve monitorStream] (after_reachable _));
    vm_compute; reflexivity.
Defined.

(** The platform is called by [requestScreenShare] and by nothing
    else. *)
Lemma step_calls (w : World) (e : Event) :
  displayMediaCalls (step w e)
  = displayMediaCalls w + (if isStart e then 1 else 0).
Proof.
  cells w.
  destruct e as [| |ms|err|i|]; cbn [isStart].
  - destruct s as [s|]; run_step; lia.
  - destruct s as [s|]; destruct mt; run_step; lia.
  - unfold_hook. destruct (getVideoTracks ms) as [|track tracks];
      destruct s as [s|]; destruct mt; run_step;
      try lia; destruct (id s =? id ms)%nat; cbn; lia.
  - destruct s as [s|]; destruct mt; run_step; lia.
  - destruct s as [s|]; destruct mt; run_step; lia.
  - destruct s as [s|]; run_step; lia.
Qed.

(** X7. Over every run the number of [getDisplayMedia] calls grows by
    the number of [requestScreenShare] calls: each start makes one
    platform call, and no other handler makes any. *)
Theorem one_platform_call_per_start
    (w w' : World) (events : list Event) :
  run w events = Some w' ->
  displayMediaCalls w' = displayMediaCalls w + starts events.
Proof.
  revert w. induction events as [|e rest IH]; intros w Hrun.
  - injection Hrun as <-. unfold starts. simpl. lia.
  - apply run_cons in Hrun as [_ Hrun].
    rewrite (IH (step w e) Hrun), step_calls.
    unfold starts. simpl. destruct (isStart e); simpl; lia.
Qed.

Lemma one_platform_call_per_start_witness :
  displayMediaCalls
    (after [Start; Reject pickerDismissed; Start; Resolve monitorStream;
            Stop])
  = 2.
Proof.
  apply (one_platform_call_per_start initial
           (after [Start; Reject pickerDismissed; Start;
                   Resolve monitorStream; Stop])
           [Start; Reject pickerDismissed; Start; Resolve monitorStream;
            Stop]).
  vm_compute. reflexivity.
Defined.

(** Requests outstanding are requests made; before the first start the
    state is the initial one, after it the phase is never [IDLE]. *)
Lemma reachable_idle (w : World) :
  reachable w ->
  inFlight w <= displayMediaCalls w
  /\ (displayMediaCalls w = 0 -> state w = state initial)
  /\ (displayMediaCalls w <> 0 -> permissionState (state w) <> IDLE).
Proof.
  induction 1 as [|w e Hw [Hle [Hzero Hpos]] He].
  - cbn. repeat split; [lia | now intros H].
  - apply reachable_Inv in Hw. destruct Hw as [_ _ Hflag Hlis _ _ _ _].
    cells w. destruct e as [| |ms|err|i|].
    + destruct s as [s|]; run_step;
        (split; [lia|]; split; [discriminate | intros _; discriminate]).
    + destruct s as [s|]; [specialize (Hflag eq_refl); subst mt|];
        run_step; auto.
    + assert (Hc : c <> 0).
      { cbn in He. apply andb_true_iff in He. destruct He as [He _].
        destruct n; [discriminate He | lia]. }
      specialize (Hpos Hc).
      pose proof (classify_rest noVideoTrack) as Hrest.
      unfold_hook. remember (classify noVideoTrack) as q eqn:Hq. clear Hq.
      destruct (getVideoTracks ms) as [|track tracks];
        destruct s as [s|]; try (specialize (Hflag eq_refl); subst mt);
        try destruct mt; run_step;
        (split; [lia|]; split; [now intros H|]; intros _;
         try exact Hpos; try discriminate).
      all: try (intros ->; discriminate Hrest).
    + assert (Hc : c <> 0).
      { cbn in He. destruct n; [discriminate He | lia]. }
      specialize (Hpos Hc).
      pose proof (classify_rest err) as Hrest.
      unfold_hook. remember (classify err) as q eqn:Hq. clear Hq.
      destruct s as [s|]; try (specialize (Hflag eq_refl); subst mt);
        try destruct mt; run_step;
        (split; [lia|]; split; [now intros H|]; intros _;
         try exact Hpos).
      all: try (intros ->; discriminate Hrest).
    + cbn in He. apply mem_nonempty in He. specialize (Hlis He). subst mt.
      destruct s as [s|]; run_step; auto.
    + destruct s as [s|]; run_step; auto.
Qed.

(** X8. After the first call of [requestScreenShare] the phase is never
    [IDLE] again: neither [stopScreenShare] nor the end of a track
    brings the hook back to it. *)
Theorem never_back_to_IDLE (w : World) :
  reachable w -> displayMediaCalls w <> 0 ->
  permissionState (state w) <> IDLE.
Proof. intros Hw. apply (reachable_idle w Hw). Qed.

Lemma never_back_to_IDLE_witness :
  permissionState
    (state (after [Start; Resolve monitorStream; Stop;
                   TrackEnded (id monitorStream)]))
  <> IDLE.
Proof.
  apply (never_back_to_IDLE
           (after [Start; Resolve monitorStream; Stop;
                   TrackEnded (id monitorStream)])
           (after_reachable _)).
  vm_compute. discriminate.
Defined.

(** X9. What the page renders in a reachable state: the block with the
    retry button is never rendered; the stop button is rendered exactly
    when a stream is in the state; and a start button and the stop
    button are never rendered together. *)
Theorem page_buttons (w : World) :
  reachable w ->
  showRetry (state w) = false
  /\ showStop (state w) = present (stream (state w))
  /\ (showStop (state w) = true -> offersStart (state w) = false).
Proof.
  intros Hw. pose proof (reachable_idle w Hw) as [_ [Hzero Hpos]].
  apply reachable_Inv in Hw.
  destruct Hw as [Hpair Hact _ _ _ _ Hheld _].
  assert (Hretry : showRetry (state w) = false).
  { destruct (Nat.eq_dec (displayMediaCalls w) 0) as [Hc|Hc].
    - rewrite (Hzero Hc). reflexivity.
    - specialize (Hpos Hc). unfold showRetry.
      destruct (permissionState (state w)); try now elim Hpos.
      all: cbn; now rewrite ?andb_false_r. }
  assert (Hstop : showStop (state w) = present (stream (state w))).
  { unfold showStop. rewrite Hact, <- Hpair.
    now destruct (present (stream (state w))). }
  split; [exact Hretry|]. split; [exact Hstop|].
  rewrite Hstop. intros Hs. unfold offersStart. rewrite Hretry.
  unfold showInitialButton, isRequesting.
  destruct (Hheld Hs) as [-> | ->]; reflexivity.
Qed.

Lemma page_buttons_witness :
  let w := after [Start; Resolve monitorStream; Stop] in
  showRetry (state w) = false /\ showStop (state w) = true.
Proof.
  cbv zeta.
  destruct (page_buttons (after [Start; Resolve monitorStream; Stop])
              (after_reachable _)) as [Hretry [Hstop _]].
  split; [exact Hretry|]. rewrite Hstop. reflexivity.
Defined.

Lemma pageRun_cons (w : World) (e : Event) (rest : list Event) (w' : World) :
  pageRun w (e :: rest) = Some w' ->
  offers w e = true /\ pageRun (step w e) rest = Some w'.
Proof.
  unfold pageRun. simpl. destruct (offers w e); [now split | discriminate].
Qed.

(** One event of the page on a world that holds a stream. *)
Lemma page_step_frozen (w : World) (e : Event) :
  pageReachable w -> present (stream (state w)) = true ->
  offers w e = true -> state (step w e) = state w.
Proof.
  intros Hp Hs He.
  pose proof (pageReachable_PageInv w Hp) as [Hone Hreq _ Hstr].
  pose proof (reachable_Inv w (pageReachable_reachable w Hp)) as HI.
  pose proof (inv_flag w HI Hs) as Hm.
  apply (step_flagless w e Hm). intros ->.
  unfold offers in He. apply andb_true_iff in He. destruct He as [_ He].
  apply offersStart_phase in He. destruct He as [_ He].
  now apply He, Hstr.
Qed.

(** X10. When the page is the only caller, the state is frozen as soon
    as a stream is stored: after every further list of events of the
    page, the platform and the tracks it is the same state, so the page
    keeps showing an active stream and never offers a start again. *)
Theorem page_frozen_after_first_grant
    (w w' : World) (events : list Event) :
  pageReachable w -> present (stream (state w)) = true ->
  pageRun w events = Some w' ->
  state w' = state w /\ offersStart (state w') = false.
Proof.
  intros Hp Hs Hrun.
  assert (Hstate : state w' = state w).
  { revert w Hp Hs Hrun. induction events as [|e rest IH]; intros w Hp Hs Hrun.
    - now injection Hrun as <-.
    - apply pageRun_cons in Hrun as [He Hrun].
      pose proof (page_step_frozen w e Hp Hs He) as Hst.
      rewrite <- Hst. apply IH; [now apply reach_step | now rewrite Hst | exact Hrun]. }
  split; [exact Hstate|]. rewrite Hstate.
  pose proof (pinv_stream w (pageReachable_PageInv w Hp) Hs) as Hg.
  pose proof (page_buttons w (pageReachable_reachable w Hp)) as [Hretry _].
  unfold offersStart. rewrite Hretry.
  unfold showInitialButton, isRequesting. now rewrite Hg.
Qed.

Lemma page_frozen_after_first_grant_witness :
  let w := pageAfter [Start; Resolve monitorStream] in
  let w' := pageAfter [Start; Resolve monitorStream; Stop;
                       TrackEnded (id monitorStream); Stop] in
  state w' = state w /\ offersStart (state w') = false.
Proof.
  cbv zeta.
  apply (page_frozen_after_first_grant
           (pageAfter [Start; Resolve monitorStream])
           (pageAfter [Start; Resolve monitorStream; Stop;
                       TrackEnded (id monitorStream); Stop])
           [Stop; TrackEnded (id monitorStream); Stop]
           (pageAfter_reachable _)); vm_compute; reflexivity.
Defined.

(** *** Where the granted streams end up *)

Lemma step_cleaned_incl (w : World) (e : Event) (i : nat) :
  In i (cleaned w) -> In i (cleaned (step w e)).
Proof.
  intros Hi. cells w.
  destruct e as [| |ms|err|j|].
  - destruct s as [s|]; run_step; exact Hi.
  - destruct s as [s|]; destruct mt; run_step;
      try exact Hi; repeat (apply in_or_app; left); exact Hi.
  - unfold_hook. destruct (getVideoTracks ms) as [|track tracks];
      destruct s as [s|]; destruct mt; run_step;
      try exact Hi; try (apply in_or_app; left; exact Hi);
      destruct (id s =? id ms)%nat; cbn;
      try exact Hi; apply in_or_app; left; exact Hi.
  - destruct s as [s|]; destruct mt; run_step; exact Hi.
  - destruct s as [s|]; destruct mt; run_step;
      try exact Hi; apply in_or_app; left; exact Hi.
  - destruct s as [s|]; run_step;
      try exact Hi; apply in_or_app; left; exact Hi.
Qed.

(** A held stream stays held until the unmount, which cleans it up. *)
Lemma step_held (w : World) (e : Event) (ms : MediaStream) :
  isMountedRef w = false -> rendered w = true ->
  stream (state w) = Some ms ->
  In (id ms) (cleaned (step w e))
  \/ (rendered (step w e) = true /\ stream (state (step w e)) = Some ms).
Proof.
  intros Hm Hr Hs. cells w. subst mt r s.
  destruct e as [| |ms'|err|j|].
  - run_step. right. now split.
  - run_step. left. apply in_or_app. right. now left.
  - unfold_hook. destruct (getVideoTracks ms') as [|track tracks];
      run_step; right; now split.
  - run_step. right. now split.
  - run_step. right. now split.
  - run_step. left. apply in_or_app. right. now left.
Qed.

(** A granted stream with a video track is stored or cleaned up. *)
Lemma resolve_with_track (w : World) (ms : MediaStream) :
  Inv w -> getVideoTracks ms <> [] ->
  In (id ms) (cleaned (step w (Resolve ms)))
  \/ (rendered (step w (Resolve ms)) = true
      /\ stream (state (step w (Resolve ms))) = Some ms).
Proof.
  intros [_ _ Hflag _ Hdis _ _ _] Hv. cells w. unfold_hook.
  destruct (getVideoTracks ms) as [|track tracks]; [now elim Hv|].
  destruct mt.
  - destruct s as [s|]; [discriminate (Hflag eq_refl)|].
    destruct r; [|discriminate (Hdis eq_refl)].
    run_step. right. now split.
  - destruct s as [s|]; run_step; left; apply in_or_app; right; now left.
Qed.

Lemma grantedWithTrack_cons (e : Event) (rest : list Event) :
  grantedWithTrack (e :: rest)
  = (grantedWithTrack [e] ++ grantedWithTrack rest)%list.
Proof.
  destruct e as [| |ms|err|i|]; try reflexivity.
  cbn. now destruct (getVideoTracks ms).
Qed.

Lemma step_accountedFor (w : World) (e : Event) (G : list MediaStream) :
  reachable w -> accountedFor G w ->
  accountedFor (G ++ grantedWithTrack [e])%list (step w e).
Proof.
  intros Hw HG ms Hin. pose proof (reachable_Inv w Hw) as HI.
  apply in_app_or in Hin. destruct Hin as [Hin|Hin].
  - destruct (HG ms Hin) as [Hc|[Hr Hs]].
    + left. now apply step_cleaned_incl.
    + apply step_held; [|exact Hr|exact Hs].
      apply (inv_flag w HI). now rewrite Hs.
  - destruct e as [| |ms'|err|i|]; try now elim Hin.
    cbn in Hin. destruct (getVideoTracks ms') as [|track tracks] eqn:Hv;
      [now elim Hin|].
    destruct Hin as [<-|[]]. apply resolve_with_track; [exact HI|].
    now rewrite Hv.
Qed.

Lemma run_accountedFor (events : list Event) (w w' : World)
    (G : list MediaStream) :
  reachable w -> accountedFor G w -> run w events = Some w' ->
  accountedFor (G ++ grantedWithTrack events)%list w'.
Proof.
  revert w G. induction events as [|e rest IH]; intros w G Hw HG Hrun.
  - injection Hrun as <-. cbn. now rewrite app_nil_r.
  - apply run_cons in Hrun as [He Hrun].
    rewrite grantedWithTrack_cons, app_assoc.
    apply (IH (step w e)); [now apply reach_step | | exact Hrun].
    now apply step_accountedFor.
Qed.

(** X11. In every run that ends after the unmount, each stream with a
    video track that the platform handed out has been passed to
    [cleanupStream] at least once. *)
Theorem streams_with_track_are_released
    (events : list Event) (w : World) (ms : MediaStream) :
  run initial events = Some w -> rendered w = false ->
  In ms (grantedWithTrack events) ->
  1 <= releases (id ms) w.
Proof.
  intros Hrun Hr Hin.
  assert (Hacc : accountedFor ([] ++ grantedWithTrack events)%list w).
  { apply (run_accountedFor events initial w []);
      [constructor | now intros x Hx | exact Hrun]. }
  destruct (Hacc ms Hin) as [Hc|[Hr' _]]; [|congruence].
  unfold releases. now apply count_occ_In.
Qed.

Lemma streams_with_track_are_released_witness :
  1 <= releases (id bareStream)
         (after [Start; Resolve monitorStream; Start; Resolve bareStream;
                 Unmount]).
Proof.
  apply (streams_with_track_are_released
           [Start; Resolve monitorStream; Start; Resolve bareStream; Unmount]
           (after [Start; Resolve monitorStream; Start; Resolve bareStream;
                   Unmount])
           bareStream).
  - vm_compute. reflexivity.
  - vm_compute. reflexivity.
  - cbn. right. now left.
Defined.

(** X12. A grant without a video track that reaches a hook whose flag
    is set ends in [ERROR] with the error "No video track found" stored
    and [isActive] false; the stream is neither stored nor cleaned up,
    and no listener is installed. *)
Theorem grant_without_video_track_is_ERROR (w : World) (ms : MediaStream) :
  isMountedRef w = true -> getVideoTracks ms = [] ->
  state (step w (Resolve ms))
  = mkState ERROR (stream (state w)) (metadata (state w))
      (Some noVideoTrack) false
  /\ cleaned (step w (Resolve ms)) = cleaned w
  /\ onended (step w (Resolve ms)) = onended w.
Proof.
  intros Hm Hv. cells w. subst mt. unfold_hook. rewrite Hv.
  change (classify noVideoTrack) with ERROR.
  destruct s as [s|]; run_step; now repeat split.
Qed.

Lemma grant_without_video_track_is_ERROR_witness :
  let w := step (after [Start]) (Resolve tracklessStream) in
  permissionState (state w) = ERROR
  /\ error (state w) = Some noVideoTrack
  /\ cleaned w = [].
Proof.
  cbv zeta.
  destruct (grant_without_video_track_is_ERROR (after [Start])
              tracklessStream eq_refl eq_refl) as [Hs [Hc _]].
  rewrite Hs, Hc. now repeat split.
Defined.

End FlagFacts.

(* ================================================================== *)
(** ** Metadata, the probe and the components *)
(* ================================================================== *)

Module ComponentFacts.
Import JsString JsStringFacts BrowserFacts Browser Types Platform Hook
  Samples Components.

Lemma orZero_cases (value : option number) :
  orZero value = zero
  \/ (truthy (orZero value) = true /\ value = Some (orZero value)).
Proof.
  unfold orZero. destruct value as [n|]; [|now left].
  destruct (truthy n) eqn:Hn; [right; now split | now left].
Qed.

Lemma orZero_not_NaN (value : option number) : orZero value <> NaN.
Proof.
  destruct (orZero_cases value) as [-> | [H _]]; [discriminate|].
  intros E. rewrite E in H. discriminate H.
Qed.

(** X13. The width, the height and the frame rate of extracted metadata
    are never [NaN]: each is the number the first video track reports
    when that number is neither 0 nor [NaN], and 0 otherwise. *)
Theorem metadata_numbers_are_numbers
    (ms : MediaStream) (track : MediaStreamTrack)
    (rest : list MediaStreamTrack) (md : StreamMetadata) :
  getVideoTracks ms = track :: rest ->
  extractMetadata ms = Ok md ->
  let settings := getSettings track in
  Types.width md <> NaN /\ Types.height md <> NaN
  /\ Types.frameRate md <> NaN
  /\ (forall n, Platform.width settings = Some n ->
        Types.width md = if truthy n then n else zero)
  /\ (forall n, Platform.height settings = Some n ->
        Types.height md = if truthy n then n else zero)
  /\ (forall n, Platform.frameRate settings = Some n ->
        Types.frameRate md = if truthy n then n else zero).
Proof.
  intros Hv Hmd settings. unfold extractMetadata in Hmd. rewrite Hv in Hmd.
  injection Hmd as <-. cbn [Types.width Types.height Types.frameRate].
  fold settings.
  split; [apply orZero_not_NaN|]. split; [apply orZero_not_NaN|].
  split; [apply orZero_not_NaN|].
  repeat split; intros n ->; reflexivity.
Qed.

Lemma metadata_numbers_are_numbers_witness :
  exists md,
    extractMetadata
      (mkStream 5 [mkTrack video
                     (mkSettings None (Some NaN) (Some (Fin 0%Q))
                        (Some (Fin 30%Q)))])
    = Ok md
    /\ Types.width md = zero /\ Types.height md = zero
    /\ Types.frameRate md = Fin 30%Q.
Proof.
  eexists. split; [reflexivity|].
  destruct (metadata_numbers_are_numbers
              (mkStream 5 [mkTrack video
                             (mkSettings None (Some NaN) (Some (Fin 0%Q))
                                (Some (Fin 30%Q)))])
              _ _ _ eq_refl eq_refl) as [_ [_ [_ [Hw [Hh Hf]]]]].
  split; [exact (Hw _ eq_refl)|]. split; [exact (Hh _ eq_refl)|].
  exact (Hf _ eq_refl).
Defined.

Lemma filter_skip (pre : list MediaStreamTrack) (v : MediaStreamTrack)
    (rest : list MediaStreamTrack) :
  forallb (fun t => negb (isVideo t)) pre = true -> isVideo v = true ->
  filter isVideo (pre ++ v :: rest) = v :: filter isVideo rest.
Proof.
  intros Hpre Hv. induction pre as [|t pre IH]; simpl.
  - now rewrite Hv.
  - simpl in Hpre. apply andb_true_iff in Hpre. destruct Hpre as [Ht Hpre].
    apply negb_true_iff in Ht. rewrite Ht. now apply IH.
Qed.

Lemma filter_none (l : list MediaStreamTrack) :
  filter isVideo l = [] <-> forallb (fun t => negb (isVideo t)) l = true.
Proof.
  induction l as [|t l IH]; simpl; [tauto|].
  destruct (isVideo t); simpl; [split; discriminate | exact IH].
Qed.

(** X14. [extractMetadata] throws exactly when no track of the stream
    is a video track, and then it throws "No video track found";
    otherwise the metadata are those of the first video track alone:
    tracks of another kind before it and all tracks after it do not
    matter. *)
Theorem extractMetadata_reads_first_video_track
    (ms : MediaStream) (i : nat) (pre : list MediaStreamTrack)
    (v : MediaStreamTrack) (rest : list MediaStreamTrack) :
  ((exists err, extractMetadata ms = Throw err) <->
   forallb (fun t => negb (isVideo t)) (getTracks ms) = true)
  /\ (forall err, extractMetadata ms = Throw err -> err = noVideoTrack)
  /\ (forallb (fun t => negb (isVideo t)) pre = true -> isVideo v = true ->
      extractMetadata (mkStream i (pre ++ v :: rest))
      = extractMetadata (mkStream 0 [v])).
Proof.
  split; [|split].
  - rewrite <- filter_none. unfold extractMetadata, getVideoTracks.
    destruct (filter isVideo (getTracks ms)); split.
    + reflexivity.
    + eauto.
    + intros [err H]. discriminate H.
    + discriminate.
  - intros err. unfold extractMetadata.
    destruct (getVideoTracks ms); [now intros [= <-] | discriminate].
  - intros Hpre Hv. unfold extractMetadata, getVideoTracks.
    cbn [getTracks]. rewrite (filter_skip pre v rest Hpre Hv).
    cbn [filter]. now rewrite Hv.
Qed.

Lemma extractMetadata_reads_first_video_track_witness :
  extractMetadata
    (mkStream 4 ([mkTrack audio bareSettings]
                 ++ mkTrack video monitorSettings
                    :: [mkTrack video bareSettings]))
  = extractMetadata (mkStream 0 [mkTrack video monitorSettings]).
Proof.
  apply (extractMetadata_reads_first_video_track tracklessStream 4
           [mkTrack audio bareSettings] (mkTrack video monitorSettings)
           [mkTrack video bareSettings]); reflexivity.
Defined.

(** X15. The later answers of [getBrowserInfo]: "Firefox" exactly for
    the user agents that contain "Firefox" and neither "Chrome" nor
    "Edg"; "Safari" exactly for those that contain "Safari" and none of
    the other three; "Unknown" exactly for those that contain none of
    the four; and "Unknown (no navigator)" exactly when there is no
    navigator. *)
Theorem getBrowserInfo_later_answers (navigator : option string) :
  (getBrowserInfo navigator = "Firefox" <->
   exists ua, navigator = Some ua /\ contains ua "Firefox"
     /\ ~ contains ua "Chrome" /\ ~ contains ua "Edg")
  /\ (getBrowserInfo navigator = "Safari" <->
      exists ua, navigator = Some ua /\ contains ua "Safari"
        /\ ~ contains ua "Chrome" /\ ~ contains ua "Edg"
        /\ ~ contains ua "Firefox")
  /\ (getBrowserInfo navigator = "Unknown" <->
      exists ua, navigator = Some ua
        /\ ~ contains ua "Chrome" /\ ~ contains ua "Edg"
        /\ ~ contains ua "Firefox" /\ ~ contains ua "Safari")
  /\ (getBrowserInfo navigator = "Unknown (no navigator)" <->
      navigator = None).
Proof.
  destruct navigator as [ua|].
  - unfold getBrowserInfo.
    assert (Hex : forall P : string -> Prop,
               (exists ua', Some ua = Some ua' /\ P ua') <-> P ua).
    { intros P. split; [intros [ua' [[= <-] H]]; exact H | eauto]. }
    rewrite (Hex (fun u => contains u "Firefox" /\ ~ contains u "Chrome"
                           /\ ~ contains u "Edg")).
    rewrite (Hex (fun u => contains u "Safari" /\ ~ contains u "Chrome"
                           /\ ~ contains u "Edg" /\ ~ contains u "Firefox")).
    rewrite (Hex (fun u => ~ contains u "Chrome" /\ ~ contains u "Edg"
                           /\ ~ contains u "Firefox"
                           /\ ~ contains u "Safari")).
    rewrite <- !includes_false, <- !includes_spec.
    destruct (includes ua "Chrome"), (includes ua "Edg"),
      (includes ua "Firefox"), (includes ua "Safari");
      repeat split; try discriminate; try tauto;
      try (intros H; decompose [and] H; discriminate).
  - cbn. repeat split; try discriminate;
      try (intros [ua [H _]]; discriminate H).
Qed.

Lemma getBrowserInfo_later_answers_witness :
  getBrowserInfo
    (Some "Mozilla/5.0 (X11; Linux x86_64; rv:121.0) Gecko/20100101 Firefox/121.0")
  = "Firefox".
Proof.
  apply (getBrowserInfo_later_answers
           (Some "Mozilla/5.0 (X11; Linux x86_64; rv:121.0) Gecko/20100101 Firefox/121.0")).
  eexists. split; [reflexivity|].
  rewrite <- !includes_false, <- includes_spec. now repeat split.
Defined.

(** X16. [PermissionStateDisplay] renders nothing exactly in [IDLE] and
    [GRANTED]; outside [ERROR] what it renders does not depend on the
    error at all, so the error stored with [CANCELLED] or [DENIED] is
    never shown; the block with the error's name and message is rendered
    exactly in [ERROR] with an error present; and the text in [ERROR] is
    the error's message unless that is empty or there is no error, when
    it is the fixed "unknown error" sentence. *)
Theorem banner_shows_error_only_in_ERROR
    (p : PermissionState) (error : option JsError) :
  (PermissionStateDisplay p error = None <-> p = IDLE \/ p = GRANTED)
  /\ (p <> ERROR ->
      PermissionStateDisplay p error = PermissionStateDisplay p None)
  /\ (forall b, PermissionStateDisplay p error = Some b ->
      (details b <> None <-> p = ERROR /\ error <> None))
  /\ (forall b, PermissionStateDisplay ERROR error = Some b ->
      (exists err, error = Some err /\ message err <> ""
                   /\ text b = message err)
      \/ ((error = None \/ exists err, error = Some err /\ message err = "")
          /\ text b = unknownErrorText)).
Proof.
  split; [|split; [|split]].
  - destruct p; cbn; split; try discriminate; try tauto;
      intros [H|H]; discriminate H.
  - intros Hp. destruct p; try reflexivity; try (now elim Hp);
      destruct error; reflexivity.
  - intros b. destruct p, error as [err|]; cbn; intros [= <-]; cbn;
      split; try discriminate; try tauto;
      try (intros [H _]; discriminate H); try (intros [_ H]; now elim H);
      try (intros _; split; [reflexivity | discriminate]).
  - intros b. cbn. intros [= <-]. cbn. unfold errorText.
    destruct error as [err|]; [|right; split; [now left | reflexivity]].
    destruct (String.eqb_spec (message err) "") as [E|E].
    + right. split; [right; eauto | reflexivity].
    + left. eauto.
Qed.

Lemma banner_shows_error_only_in_ERROR_witness :
  PermissionStateDisplay CANCELLED (Some pickerDismissed)
  = PermissionStateDisplay CANCELLED None.
Proof.
  apply (banner_shows_error_only_in_ERROR CANCELLED (Some pickerDismissed)).
  discriminate.
Defined.

(** X17. The home page pushes the route "/screen-test" only after its
    mount effect has run and only when the probe found
    [getDisplayMedia]: before the effect, and with a navigator that
    lacks [mediaDevices] or the key, [handleStartTest] does nothing; and
    the button can be clicked exactly when [handleStartTest] would
    navigate. *)
Theorem home_navigates_iff_supported
    (navigator : option Navigator) (s : HomeState) :
  handleStartTest homeInitial = None
  /\ (handleStartTest (homeMounted navigator) = Some "/screen-test" <->
      exists nav devices,
        navigator = Some nav /\ mediaDevices nav = Some devices
        /\ hasGetDisplayMediaKey devices = true)
  /\ (handleStartTest (homeMounted navigator) = None <->
      isScreenShareSupported navigator = false)
  /\ (homeButtonClickable s = true <-> handleStartTest s <> None).
Proof.
  split; [reflexivity|]. split; [|split].
  - unfold handleStartTest, homeMounted, isScreenShareSupported.
    cbn [isSupported].
    destruct navigator as [[ua [[k]|]]|]; cbn.
    + destruct k; split; try discriminate.
      * intros _. exists (mkNavigator ua (Some (mkMediaDevices true))),
          (mkMediaDevices true). now repeat split.
      * reflexivity.
      * intros [nav [d [[= <-] [[= <-] H]]]]. discriminate H.
    + split; [discriminate|]. intros [nav [d [[= <-] [H _]]]]. discriminate H.
    + split; [discriminate|]. intros [nav [d [H _]]]. discriminate H.
  - unfold handleStartTest, homeMounted. cbn [isSupported].
    destruct (isScreenShareSupported navigator); split;
      try discriminate; reflexivity.
  - unfold homeButtonClickable, homeBlock, handleStartTest.
    destruct (isSupported s) as [[|]|]; split;
      try discriminate; try reflexivity; intros H; now elim H.
Qed.

Lemma home_navigates_iff_supported_witness :
  handleStartTest
    (homeMounted
       (Some (mkNavigator edge_user_agent (Some (mkMediaDevices true)))))
  = Some "/screen-test"
  /\ handleStartTest (homeMounted (Some (mkNavigator edge_user_agent None)))
     = None.
Proof.
  split.
  - apply (home_navigates_iff_supported
             (Some (mkNavigator edge_user_agent (Some (mkMediaDevices true))))
             homeInitial).
    eexists. eexists. now repeat split.
  - apply (home_navigates_iff_supported
             (Some (mkNavigator edge_user_agent None)) homeInitial).
    reflexivity.
Defined.

(** X18. The label the preview shows is never missing, and it follows
    the surface the first video track reports: "Entire Screen" exactly
    for "monitor", "Application Window" for "window", "Browser Tab" for
    "browser", and "Unknown Source" for every other or absent
    surface. *)
Theorem preview_label_follows_surface
    (ms : MediaStream) (track : MediaStreamTrack)
    (rest : list MediaStreamTrack) (md : StreamMetadata) :
  getVideoTracks ms = track :: rest ->
  extractMetadata ms = Ok md ->
  let surface := displaySurface (getSettings track) in
  displayTypeLabel md <> None
  /\ (displayTypeLabel md = Some "Entire Screen" <->
      surface = Some "monitor")
  /\ (displayTypeLabel md = Some "Application Window" <->
      surface = Some "window")
  /\ (displayTypeLabel md = Some "Browser Tab" <->
      surface = Some "browser")
  /\ (displayTypeLabel md = Some "Unknown Source" <->
      surface <> Some "monitor" /\ surface <> Some "window"
      /\ surface <> Some "browser").
Proof.
  intros Hv Hmd surface. unfold extractMetadata in Hmd. rewrite Hv in Hmd.
  injection Hmd as <-. unfold displayTypeLabel. cbn [displayType].
  unfold getDisplayType. fold surface.
  destruct surface as [name|].
  - destruct (String.eqb_spec name "monitor") as [->|Hm].
    { cbn. repeat split; try discriminate; try tauto;
        intros H; decompose [and] H; congruence. }
    destruct (String.eqb_spec name "window") as [->|Hw].
    { cbn. repeat split; try discriminate; try tauto;
        intros H; decompose [and] H; congruence. }
    destruct (String.eqb_spec name "browser") as [->|Hb].
    { cbn. repeat split; try discriminate; try tauto;
        intros H; decompose [and] H; congruence. }
    cbn. repeat split; try discriminate; try congruence.
  - cbn. repeat split; try discriminate.
Qed.

Lemma preview_label_follows_surface_witness :
  exists md,
    extractMetadata bareStream = Ok md
    /\ displayTypeLabel md = Some "Unknown Source".
Proof.
  eexists. split; [reflexivity|].
  apply (preview_label_follows_surface bareStream _ _ _ eq_refl eq_refl).
  repeat split; discriminate.
Defined.

End ComponentFacts.
